(** * gatsby-source-contentful: schema generation

    A shallow embedding of
    [packages/gatsby-source-contentful/src/generate-schema.js]
    and the properties of its field translator, its schema assembler and
    its rich-text link resolver. *)

From Stdlib Require Import String Ascii List Bool Arith Lia.
From stdpp Require Import base option list strings gmap fin_maps.

Local Open Scope string_scope.
Local Open Scope list_scope.
#[local] Set Warnings "-clear-no-such-hyp".

(** ** JavaScript values and completions *)

(** What a template literal prints for a property that holds a string or is
    absent: [`${undefined}`] is the text [undefined]. *)
Definition template (v : option string) : string :=
  match v with
  | Some s => s
  | None => "undefined"
  end.

(** Truthiness of a property that holds a string or is absent. *)
Definition truthy (v : option string) : bool :=
  match v with
  | Some s => negb (s =? "")
  | None => false
  end.

(** A thrown [Error] object.  The engine writes the text of [stack] when
    the property is first read, from [name] and [message] as they are at that
    moment, and keeps that text from then on; the call frames that follow
    its first line are left out. *)
Record Error := { name : string; message : string; stack : option string }.

(** A [TypeError] the engine has just created: its stack has not been read. *)
Definition TypeError (msg : string) : Error :=
  {| name := "TypeError"; message := msg; stack := None |}.

(** Reading [err.stack]: the text, and the error that now keeps it. *)
Definition read_stack (err : Error) : string * Error :=
  match stack err with
  | Some text => (text, err)
  | None =>
      let text := name err +:+ ": " +:+ message err in
      (text, {| name := name err; message := message err; stack := Some text |})
  end.

(** The outcome of evaluating an expression: a value, or a thrown error. *)
Inductive completion (A : Type) : Type :=
| Normal (a : A)
| Throw (e : Error).
Arguments Normal {A} a.
Arguments Throw {A} e.

#[global] Instance completion_ret : MRet completion := @Normal.
#[global] Instance completion_bind : MBind completion :=
  fun A B k c => match c with Normal a => k a | Throw e => Throw e end.

(** The line feed of [\n] in a template literal. *)
Definition newline : string := String "010" EmptyString.

(** The texts of the two errors the engine raises for the module. *)
Definition not_a_function : string :=
  "ContentfulDataTypes.get(...) is not a function".
Definition read_type_of_undefined : string :=
  "Cannot read properties of undefined (reading 'type')".

(** ** Data model *)

(** A field definition of a content type, and the [items] of an array. *)
Module Field.
#[local] Unset Elimination Schemes.
Inductive t : Type := mk {
  id : option string;
  type : string;
  required : bool;
  disabled : bool;
  omitted : bool;
  linkType : option string;
  items : option t
}.
End Field.

(** A plain object whose values are strings, [{ by: .., from: .. }]. *)
Abbreviation props := (gmap string string).
(** The [extensions] of a declaration: directive name to its arguments. *)
Abbreviation extensions_t := (gmap string (gmap string string)).

(** The field descriptor [{ type, extensions? }]. *)
Module Descriptor.
Record t : Type := mk {
  type : string;
  extensions : option extensions_t
}.
(** [{ ...d, type: ty }] and [d.type = ty]: the other keys are kept. *)
Definition with_type (d : t) (ty : string) : t :=
  {| type := ty; extensions := extensions d |}.
End Descriptor.

(** [{ link: { by: `id`, from: `${field.id}___NODE` } }] *)
Definition link_extension (field : Field.t) : extensions_t :=
  {[ "link" := ({[ "by" := "id";
                   "from" := template (Field.id field) +:+ "___NODE" ]} : props) ]}.

(** ** The dispatch table *)

Definition ContentfulDataTypes : gmap string (Field.t → Descriptor.t) :=
  list_to_map
    [ ("Symbol", fun _ => Descriptor.mk "String" None);
      ("Text", fun field =>
         Descriptor.mk "ContentfulText" (Some (link_extension field)));
      ("Integer", fun _ => Descriptor.mk "Int" None);
      ("Number", fun _ => Descriptor.mk "Float" None);
      ("Date", fun _ =>
         Descriptor.mk "Date" (Some {[ "dateformat" := (∅ : props) ]}));
      ("Object", fun _ => Descriptor.mk "JSON" None);
      ("Boolean", fun _ => Descriptor.mk "Boolean" None);
      ("Location", fun _ => Descriptor.mk "ContentfulLocation" None);
      ("RichText", fun _ => Descriptor.mk "ContentfulRichText" None) ].

(** ** The field translator *)

Definition getLinkFieldType (linkType : option string) (field : Field.t)
  : Descriptor.t :=
  {| Descriptor.type := "Contentful" +:+ template linkType;
     Descriptor.extensions := Some (link_extension field) |}.

Fixpoint translateFieldType (field : Field.t) : completion Descriptor.t :=
  fieldType ←
    (if Field.type field =? "Array" then
       match Field.items field with
       | None => Throw (TypeError read_type_of_undefined)
       | Some items =>
           fieldData ←
             (if Field.type items =? "Link"
              then Normal (getLinkFieldType (Field.linkType items) field)
              else translateFieldType items);
           Normal (Descriptor.with_type fieldData
                     ("[" +:+ Descriptor.type fieldData +:+ "]"))
       end
     else if Field.type field =? "Link" then
       Normal (getLinkFieldType (Field.linkType field) field)
     else
       match ContentfulDataTypes !! Field.type field with
       | Some make => Normal (make field)
       | None => Throw (TypeError not_a_function)
       end);
  Normal (if Field.required field
          then Descriptor.with_type fieldType (Descriptor.type fieldType +:+ "!")
          else fieldType).

(** The [fieldData] of an array field: the descriptor of its elements. *)
Definition fieldData_of (field items : Field.t) : completion Descriptor.t :=
  if Field.type items =? "Link"
  then Normal (getLinkFieldType (Field.linkType items) field)
  else translateFieldType items.

(** The names registered in the dispatch table, in the order of the source. *)
Definition registered_types : list string :=
  [ "Symbol"; "Text"; "Integer"; "Number"; "Date"; "Object"; "Boolean";
    "Location"; "RichText" ].

(** The number of required modifiers in a type string. *)
Fixpoint count_bang (s : string) : nat :=
  match s with
  | EmptyString => 0
  | String c rest => (if Ascii.eqb c "!" then 1 else 0) + count_bang rest
  end.

(** The descriptor the specification lists for each primitive type. *)
Definition spec_primitive_descriptor (ty : string) (fieldId : option string)
  : option Descriptor.t :=
  if ty =? "Symbol" then Some (Descriptor.mk "String" None)
  else if ty =? "Text" then
    Some (Descriptor.mk "ContentfulText"
            (Some {[ "link" := ({[ "by" := "id";
                                   "from" := template fieldId +:+ "___NODE" ]}
                                : props) ]}))
  else if ty =? "Integer" then Some (Descriptor.mk "Int" None)
  else if ty =? "Number" then Some (Descriptor.mk "Float" None)
  else if ty =? "Date" then
    Some (Descriptor.mk "Date" (Some {[ "dateformat" := (∅ : props) ]}))
  else if ty =? "Object" then Some (Descriptor.mk "JSON" None)
  else if ty =? "Boolean" then Some (Descriptor.mk "Boolean" None)
  else if ty =? "Location" then Some (Descriptor.mk "ContentfulLocation" None)
  else if ty =? "RichText" then Some (Descriptor.mk "ContentfulRichText" None)
  else None.

(** The last step of the translator: [fieldType.type = `${fieldType.type}!`]
    when [field.required]. *)
Definition apply_required (field : Field.t) (d : Descriptor.t) : Descriptor.t :=
  if Field.required field
  then Descriptor.with_type d (Descriptor.type d +:+ "!")
  else d.

(** ** Type declarations handed to the registrar *)

(** The resolvers of the source, one constructor per closure. *)
Inductive Resolver : Type :=
| RichTextLinksResolver (nodeType entityType : string)
| SourceResolver.

(** The type of an argument of the image field: a name, or one of the two
    enumerations imported from [./schemes]. *)
Inductive ArgType : Type :=
| NamedType (name : string)
| ImageResizingBehavior
| ImageCropFocusType.

Inductive ArgDefault : Type :=
| DefaultBoolean (b : bool)
| DefaultInt (n : Z).

Record ArgConfig : Type := {
  argType : ArgType;
  defaultValue : option ArgDefault;
  description : option string
}.

(** The values of a [fields] object of [schema.buildObjectType]. *)
Inductive FieldConfig : Type :=
| FieldDescriptor (d : Descriptor.t)
| FieldShorthand (type : string)
| FieldResolved (type : string) (resolve : Resolver)
| GatsbyImageField (args : gmap string ArgConfig)
    (* what [getGatsbyImageFieldConfig] returns for these arguments *).

Module ObjectType.
Record t : Type := mk {
  name : string;
  fields : gmap string FieldConfig;
  interfaces : option (list string);
  extensions : option extensions_t
}.
End ObjectType.

(** A declaration is an SDL text or the result of [schema.buildObjectType],
    which keeps the configuration it was built from. *)
Inductive TypeDecl : Type :=
| SDL (text : string)
| buildObjectType (config : ObjectType.t).

(** [{ ...base, ...fields }]: the later keys win. *)
Definition spread {V : Type} (base fields : gmap string V) : gmap string V :=
  fields ∪ base.

(** The head of an SDL declaration: the words before its opening brace. *)
Fixpoint before_brace (s : string) : string :=
  match s with
  | EmptyString => EmptyString
  | String c rest =>
      if Ascii.eqb c "{" then EmptyString else String c (before_brace rest)
  end.

Definition sdl_head (text : string) : list string :=
  String.words (before_brace text).

Definition decl_name (decl : TypeDecl) : option string :=
  match decl with
  | SDL text => sdl_head text !! 1%nat
  | buildObjectType config => Some (ObjectType.name config)
  end.

(** Whether a declaration switches inference off: the [@dontInfer] directive
    of an SDL head, the [dontInfer] key of [extensions]. *)
Definition dontInfer (decl : TypeDecl) : bool :=
  match decl with
  | SDL text => bool_decide ("@dontInfer" ∈ sdl_head text)
  | buildObjectType config =>
      match ObjectType.extensions config with
      | Some ext => bool_decide (is_Some (ext !! "dontInfer"))
      | None => false
      end
  end.

Definition decl_fields (decl : TypeDecl) : gmap string FieldConfig :=
  match decl with
  | SDL _ => ∅
  | buildObjectType config => ObjectType.fields config
  end.

Definition decl_interfaces (decl : TypeDecl) : option (list string) :=
  match decl with
  | SDL _ => None
  | buildObjectType config => ObjectType.interfaces config
  end.

(** ** The registrar and the console *)

Record World : Type := {
  registry : list TypeDecl;   (* what [createTypes] received, in order *)
  console : list string       (* what [console.log] printed, in order *)
}.

Definition action (A : Type) : Type := World → World * completion A.

#[global] Instance action_ret : MRet action := fun A a w => (w, Normal a).
#[global] Instance action_bind : MBind action :=
  fun A B k m w =>
    match m w with
    | (w', Normal a) => k a w'
    | (w', Throw e) => (w', Throw e)
    end.

(** [createTypes(...decls)]: the registrar takes every declaration it is
    given and keeps them in the order of the calls. *)
Definition createTypes (decls : list TypeDecl) : action unit :=
  fun w => ({| registry := registry w ++ decls; console := console w |},
            Normal tt).

Definition console_log (line : string) : action unit :=
  fun w => ({| registry := registry w; console := console w ++ [line] |},
            Normal tt).

Definition throw {A : Type} (e : Error) : action A := fun w => (w, Throw e).

Definition lift {A : Type} (c : completion A) : action A := fun w => (w, c).

Definition try_catch {A : Type} (body : action A) (handler : Error → action A)
  : action A :=
  fun w =>
    match body w with
    | (w', Normal a) => (w', Normal a)
    | (w', Throw e) => handler e w'
    end.

(** ** Content types *)

Module ContentTypeItem.
Record sys_t : Type := { id : string }.
Record t : Type := mk {
  name : option string;
  sys : sys_t;
  fields : list Field.t
}.
End ContentTypeItem.

(** [fields[key] = value] on a plain object, for a value that is an object:
    an own property is created or overwritten, except under the key
    [__proto__], whose setter changes the prototype of [fields] and leaves
    its own properties as they were.  The map holds the own properties, which
    is what a spread copies; the order of the keys is not part of it. *)
Definition assign {V : Type} (key : string) (value : V)
    (fields : gmap string V) : gmap string V :=
  if key =? "__proto__" then fields else <[key := value]> fields.

(** [contentTypeItem.fields.forEach(...)] writing into the [fields] object:
    a disabled or omitted field returns early, any other is translated and
    assigned under its id; a throw leaves the loop. *)
Fixpoint forEach_field (l : list Field.t) (fields : gmap string Descriptor.t)
  : completion (gmap string Descriptor.t) :=
  match l with
  | [] => Normal fields
  | field :: rest =>
      if Field.disabled field || Field.omitted field then
        forEach_field rest fields
      else
        fieldType ← translateFieldType field;
        forEach_field rest (assign (template (Field.id field)) fieldType fields)
  end.

Definition fixed_fields : gmap string FieldConfig :=
  {[ "id" := FieldDescriptor (Descriptor.mk "ID!" None);
     "sys" := FieldDescriptor (Descriptor.mk "ContentfulSys!" None);
     "metadata" := FieldDescriptor (Descriptor.mk "ContentfulMetadata!" None) ]}.

Definition dontInfer_extension : extensions_t :=
  {[ "dontInfer" := (∅ : props) ]}.

(** [contentTypeItem.name || contentTypeItem.sys.id] *)
Definition display_name (item : ContentTypeItem.t) : string :=
  if truthy (ContentTypeItem.name item)
  then template (ContentTypeItem.name item)
  else ContentTypeItem.id (ContentTypeItem.sys item).

(** The assignment to [err.message] in the [catch] block. *)
Definition annotate (item : ContentTypeItem.t) (err : Error) : Error :=
  {| name := name err;
     message := "Unable to create schema for Contentful Content Type "
                +:+ display_name item +:+ ":" +:+ newline
                +:+ message err;
     stack := stack err |}.

(** ** The schema assembler *)

Definition dquote : string := String (ascii_of_nat 34) EmptyString.

(** The four declarations given as SDL text, character for character. *)
Definition ContentfulReference_sdl : string :=
  "
    interface ContentfulReference implements Node {
      id: ID!
      sys: ContentfulSys!
    }
  ".

Definition ContentfulContentType_sdl : string :=
  "
    type ContentfulContentType implements Node {
      id: ID!
      name: String!
      displayField: String!
      description: String!
    }
  ".

Definition ContentfulSys_sdl : string :=
  "
    type ContentfulSys @dontInfer {
      type: String!
      id: String!
      spaceId: String!
      environmentId: String!
      contentType: ContentfulContentType @link(by: "
  +:+ dquote +:+ "id"
  +:+ dquote +:+ ", from: "
  +:+ dquote +:+ "contentType___NODE"
  +:+ dquote +:+ ")
      firstPublishedAt: Date!
      publishedAt: Date!
      publishedVersion: Int!
      locale: String!
    }
  ".

Definition ContentfulEntry_sdl : string :=
  "
    interface ContentfulEntry implements ContentfulReference & Node @dontInfer {
      id: ID!
      sys: ContentfulSys!
      metadata: ContentfulMetadata!
    }
  ".

(** The text [stripIndent] leaves of the description of [cornerRadius]. *)
Definition cornerRadius_description : string :=
  "Desired corner radius in pixels. Results in an image with rounded corners."
  +:+ newline +:+ "Pass `-1` for a full circle/ellipse.".

Definition gatsbyImageData_args : gmap string ArgConfig :=
  {[ "jpegProgressive" :=
       {| argType := NamedType "Boolean";
          defaultValue := Some (DefaultBoolean true);
          description := None |};
     "resizingBehavior" :=
       {| argType := ImageResizingBehavior;
          defaultValue := None; description := None |};
     "cropFocus" :=
       {| argType := ImageCropFocusType;
          defaultValue := None; description := None |};
     "cornerRadius" :=
       {| argType := NamedType "Int";
          defaultValue := Some (DefaultInt 0);
          description := Some cornerRadius_description |};
     "quality" :=
       {| argType := NamedType "Int";
          defaultValue := Some (DefaultInt 50);
          description := None |} ]}.

Definition typed (type : string) : FieldConfig :=
  FieldDescriptor (Descriptor.mk type None).

Definition ContentfulMetadata_type : TypeDecl :=
  buildObjectType
    {| ObjectType.name := "ContentfulMetadata";
       ObjectType.fields :=
         {[ "tags" :=
              FieldDescriptor
                (Descriptor.mk "[ContentfulTag]!"
                   (Some {[ "link" := ({[ "by" := "id";
                                          "from" := "tags___NODE" ]} : props) ]})) ]};
       ObjectType.interfaces := None;
       ObjectType.extensions := Some dontInfer_extension |}.

Definition ContentfulTag_type : TypeDecl :=
  buildObjectType
    {| ObjectType.name := "ContentfulTag";
       ObjectType.fields :=
         {[ "name" := typed "String!";
            "contentful_id" := typed "String!";
            "id" := typed "ID!" ]};
       ObjectType.interfaces := Some ["Node"];
       ObjectType.extensions := Some dontInfer_extension |}.

Definition ContentfulAsset_type (pluginConfig : string → bool) : TypeDecl :=
  buildObjectType
    {| ObjectType.name := "ContentfulAsset";
       ObjectType.fields :=
         spread
           (spread
              {[ "contentful_id" := typed "String!";
                 "id" := typed "ID!";
                 "gatsbyImageData" := GatsbyImageField gatsbyImageData_args ]}
              (if pluginConfig "downloadLocal"
               then {[ "localFile" :=
                         FieldDescriptor
                           (Descriptor.mk "File"
                              (Some {[ "link" :=
                                         ({[ "from" := "fields.localFile" ]}
                                          : props) ]})) ]}
               else ∅))
           {[ "sys" := typed "ContentfulSys";
              "title" := typed "String";
              "description" := typed "String";
              "contentType" := typed "String";
              "fileName" := typed "String";
              "url" := typed "String";
              "size" := typed "Int";
              "width" := typed "Int";
              "height" := typed "Int";
              "metadata" := typed "ContentfulMetadata!" ]};
       ObjectType.interfaces := Some ["ContentfulReference"; "Node"];
       ObjectType.extensions := None |}.

Definition ContentfulRichTextAssets_type : TypeDecl :=
  buildObjectType
    {| ObjectType.name := "ContentfulRichTextAssets";
       ObjectType.fields :=
         {[ "block" :=
              FieldResolved "[ContentfulAsset]!"
                (RichTextLinksResolver "embedded-asset-block" "Asset");
            "hyperlink" :=
              FieldResolved "[ContentfulAsset]!"
                (RichTextLinksResolver "asset-hyperlink" "Asset") ]};
       ObjectType.interfaces := None;
       ObjectType.extensions := None |}.

Definition ContentfulRichTextEntries_type : TypeDecl :=
  buildObjectType
    {| ObjectType.name := "ContentfulRichTextEntries";
       ObjectType.fields :=
         {[ "inline" :=
              FieldResolved "[ContentfulEntry]!"
                (RichTextLinksResolver "embedded-entry-inline" "Entry");
            "block" :=
              FieldResolved "[ContentfulEntry]!"
                (RichTextLinksResolver "embedded-entry-block" "Entry");
            "hyperlink" :=
              FieldResolved "[ContentfulEntry]!"
                (RichTextLinksResolver "entry-hyperlink" "Entry") ]};
       ObjectType.interfaces := None;
       ObjectType.extensions := None |}.

Definition ContentfulRichTextLinks_type : TypeDecl :=
  buildObjectType
    {| ObjectType.name := "ContentfulRichTextLinks";
       ObjectType.fields :=
         {[ "assets" := FieldResolved "ContentfulRichTextAssets" SourceResolver;
            "entries" := FieldResolved "ContentfulRichTextEntries" SourceResolver ]};
       ObjectType.interfaces := None;
       ObjectType.extensions := None |}.

Definition ContentfulRichText_type : TypeDecl :=
  buildObjectType
    {| ObjectType.name := "ContentfulRichText";
       ObjectType.fields :=
         {[ "json" := FieldResolved "JSON" SourceResolver;
            "links" := FieldResolved "ContentfulRichTextLinks" SourceResolver ]};
       ObjectType.interfaces := None;
       ObjectType.extensions := Some dontInfer_extension |}.

Definition ContentfulLocation_type : TypeDecl :=
  buildObjectType
    {| ObjectType.name := "ContentfulLocation";
       ObjectType.fields := {[ "lat" := typed "Float!"; "lon" := typed "Float!" ]};
       ObjectType.interfaces := None;
       ObjectType.extensions := Some dontInfer_extension |}.

Definition ContentfulText_type : TypeDecl :=
  buildObjectType
    {| ObjectType.name := "ContentfulText";
       ObjectType.fields := {[ "raw" := FieldShorthand "String!" ]};
       ObjectType.interfaces := Some ["Node"];
       ObjectType.extensions := Some dontInfer_extension |}.

Section Assembler.

(** [makeTypeName] of [./normalize], applied to a name that may be absent. *)
Variable makeTypeName : option string → string.

(** [addRemoteFilePolyfillInterface] of [gatsby-plugin-utils]: the
    declarations it returns are spread into one [createTypes] call. *)
Variable addRemoteFilePolyfillInterface : TypeDecl → list TypeDecl.

(** The body of the [try] block, up to the call of [createTypes]. *)
Definition contentTypeObject (pluginConfig : string → bool)
    (contentTypeItem : ContentTypeItem.t) : completion TypeDecl :=
  fields ← forEach_field (ContentTypeItem.fields contentTypeItem) ∅;
  let type :=
    if pluginConfig "useNameForId"
    then ContentTypeItem.name contentTypeItem
    else Some (ContentTypeItem.id (ContentTypeItem.sys contentTypeItem)) in
  Normal
    (buildObjectType
       {| ObjectType.name := makeTypeName type;
          ObjectType.fields := spread fixed_fields (FieldDescriptor <$> fields);
          ObjectType.interfaces :=
            Some ["ContentfulReference"; "ContentfulEntry"; "Node"];
          ObjectType.extensions := Some dontInfer_extension |}).

(** [for (const contentTypeItem of contentTypeItems) { try ... catch ... }] *)
Fixpoint forEach_contentType (pluginConfig : string → bool)
    (contentTypeItems : list ContentTypeItem.t) : action unit :=
  match contentTypeItems with
  | [] => mret tt
  | contentTypeItem :: rest =>
      try_catch
        (decl ← lift (contentTypeObject pluginConfig contentTypeItem);
         createTypes [decl])
        (fun err =>
           let err := annotate contentTypeItem err in
           let (text, err) := read_stack err in
           console_log text ;; throw err) ;;
      forEach_contentType pluginConfig rest
  end.

(** The declarations made before the content types, in order. *)
Definition generic_types (pluginConfig : string → bool) : action unit :=
  createTypes [SDL ContentfulReference_sdl] ;;
  createTypes [SDL ContentfulContentType_sdl] ;;
  createTypes [SDL ContentfulSys_sdl] ;;
  createTypes [SDL ContentfulEntry_sdl] ;;
  createTypes [ContentfulMetadata_type] ;;
  createTypes [ContentfulTag_type] ;;
  createTypes (addRemoteFilePolyfillInterface (ContentfulAsset_type pluginConfig)) ;;
  createTypes [ContentfulRichTextAssets_type] ;;
  createTypes [ContentfulRichTextEntries_type] ;;
  createTypes [ContentfulRichTextLinks_type] ;;
  createTypes [ContentfulRichText_type] ;;
  createTypes [ContentfulLocation_type] ;;
  createTypes [ContentfulText_type].

Definition generateSchema (pluginConfig : string → bool)
    (contentTypeItems : list ContentTypeItem.t) : action unit :=
  generic_types pluginConfig ;;
  forEach_contentType pluginConfig contentTypeItems.

End Assembler.

Definition empty_world : World := {| registry := []; console := [] |}.

(** ** The rich-text link resolver *)

Module Node.
Record sys_t : Type := { id : option string; type : option string }.
Record internal_t : Type := { owner : string }.
Record t : Type := mk { internal : internal_t; sys : option sys_t }.
(** [node?.sys?.id] and [node?.sys?.type] *)
Definition sys_id (node : t) : option string := sys node ≫= id.
Definition sys_type (node : t) : option string := sys node ≫= type.
End Node.

(** What [getRichTextEntityLinks] returns: [{ Asset: [{id}], Entry: [{id}] }]. *)
Module EntityLinks.
Record link : Type := { id : string }.
Record t : Type := mk { Asset : list link; Entry : list link }.
(** [links[entityType]] when it is a list: the result has the own keys
    [Asset] and [Entry] only. *)
Definition get (links : t) (entityType : string) : option (list link) :=
  if entityType =? "Asset" then Some (Asset links)
  else if entityType =? "Entry" then Some (Entry links)
  else None.
(** The keys the result, a plain object, inherits from [Object.prototype]:
    reading one gives a function or an object, and none of them has a [map]. *)
Definition inherited : list string :=
  [ "constructor"; "__defineGetter__"; "__defineSetter__"; "hasOwnProperty";
    "__lookupGetter__"; "__lookupSetter__"; "isPrototypeOf";
    "propertyIsEnumerable"; "toString"; "valueOf"; "__proto__";
    "toLocaleString" ].
End EntityLinks.

Definition read_map_of_undefined : string :=
  "Cannot read properties of undefined (reading 'map')".
Definition map_not_a_function : string :=
  "getRichTextEntityLinks(...)[entityType].map is not a function".

(** The error of [links[entityType].map(...)] when the key holds no list. *)
Definition no_list_error (entityType : string) : Error :=
  TypeError (if bool_decide (entityType ∈ EntityLinks.inherited)
             then map_not_a_function
             else read_map_of_undefined).

(** The callback of [filter] in the resolver. *)
Definition keeps (entityType : string) (links : list string) (node : Node.t)
  : bool :=
  (Node.owner (Node.internal node) =? "gatsby-source-contentful")
  && truthy (Node.sys_id node)
  && bool_decide (Node.sys_type node = Some entityType)
  && match Node.sys_id node with
     | Some id => bool_decide (id ∈ links)
     | None => false
     end.

Section Resolver.

(** The rich-text document and the extractor of [@contentful/rich-text-links]. *)
Variable Document : Type.
Variable getRichTextEntityLinks : Document → string → EntityLinks.t.

(** [makeRichTextLinksResolver(nodeType, entityType)(source, args, context)]
    with [allNodes] for [context.nodeModel.getAllNodes()]. *)
Definition makeRichTextLinksResolver (nodeType entityType : string)
    (source : Document) (allNodes : list Node.t) : completion (list Node.t) :=
  links ←
    match EntityLinks.get (getRichTextEntityLinks source nodeType) entityType with
    | Some found => Normal (EntityLinks.id <$> found)
    | None => Throw (no_list_error entityType)
    end;
  Normal (List.filter (keeps entityType links) allNodes).

(** What a resolver of a declared field returns. *)
Inductive Resolved : Type :=
| ResolvedNodes (nodes : list Node.t)
| ResolvedSource (source : Document).

Definition resolve (r : Resolver) (source : Document) (allNodes : list Node.t)
  : completion Resolved :=
  match r with
  | RichTextLinksResolver nodeType entityType =>
      nodes ← makeRichTextLinksResolver nodeType entityType source allNodes;
      Normal (ResolvedNodes nodes)
  | SourceResolver => Normal (ResolvedSource source)
  end.

End Resolver.

(** ** Vocabulary of the statements *)

(** The same field with its [required] flag set to [b]. *)
Definition with_required (b : bool) (field : Field.t) : Field.t :=
  {| Field.id := Field.id field; Field.type := Field.type field;
     Field.required := b; Field.disabled := Field.disabled field;
     Field.omitted := Field.omitted field;
     Field.linkType := Field.linkType field;
     Field.items := Field.items field |}.

(** A field that the loop over the fields of a content type translates. *)
Definition enabled (field : Field.t) : bool :=
  negb (Field.disabled field || Field.omitted field).

(** The key a field is stored under: [fields[field.id]]. *)
Definition field_key (field : Field.t) : string := template (Field.id field).

(** The model field that owns key [k]: the last enabled field stored there. *)
Definition model_field (k : string) (l : list Field.t) : option Field.t :=
  last (List.filter (fun field => enabled field && (field_key field =? k)) l).

Definition fixed_names : list string := ["id"; "sys"; "metadata"].

(** The fields of the examples of the specification. *)
Definition plain_field (id : option string) (type : string) (required : bool)
  : Field.t :=
  Field.mk id type required false false None None.

Definition required_symbols : Field.t :=
  Field.mk None "Array" true false false None
    (Some (plain_field None "Symbol" false)).

Definition cover_assets : Field.t :=
  Field.mk (Some "cover") "Array" false false false None
    (Some (Field.mk None "Link" false false false (Some "Asset") None)).

Definition author_entry : Field.t :=
  Field.mk (Some "author") "Link" true false false (Some "Entry") None.

Section Built.
Variable makeTypeName : option string → string.
Variable addRemoteFilePolyfillInterface : TypeDecl → list TypeDecl.

(** The content types built before the first failure, with their objects. *)
Fixpoint built (pluginConfig : string → bool) (l : list ContentTypeItem.t)
  : list (ContentTypeItem.t * TypeDecl) :=
  match l with
  | [] => []
  | item :: rest =>
      match contentTypeObject makeTypeName pluginConfig item with
      | Normal decl => (item, decl) :: built pluginConfig rest
      | Throw _ => []
      end
  end.

(** The first content type whose object cannot be built, with its error. *)
Fixpoint first_failure (pluginConfig : string → bool)
    (l : list ContentTypeItem.t) : option (ContentTypeItem.t * Error) :=
  match l with
  | [] => None
  | item :: rest =>
      match contentTypeObject makeTypeName pluginConfig item with
      | Normal _ => first_failure pluginConfig rest
      | Throw err => Some (item, err)
      end
  end.

(** The declarations that do not depend on the content model. *)
Definition generic_decls (pluginConfig : string → bool) : list TypeDecl :=
  [ SDL ContentfulReference_sdl; SDL ContentfulContentType_sdl;
    SDL ContentfulSys_sdl; SDL ContentfulEntry_sdl;
    ContentfulMetadata_type; ContentfulTag_type ]
  ++ addRemoteFilePolyfillInterface (ContentfulAsset_type pluginConfig)
  ++ [ ContentfulRichTextAssets_type; ContentfulRichTextEntries_type;
       ContentfulRichTextLinks_type; ContentfulRichText_type;
       ContentfulLocation_type; ContentfulText_type ].

End Built.

(** The declarations the assembler writes itself, the asset type as it is
    handed to [addRemoteFilePolyfillInterface]. *)
Definition own_decls (pluginConfig : string → bool) : list TypeDecl :=
  [ SDL ContentfulReference_sdl; SDL ContentfulContentType_sdl;
    SDL ContentfulSys_sdl; SDL ContentfulEntry_sdl;
    ContentfulMetadata_type; ContentfulTag_type;
    ContentfulAsset_type pluginConfig;
    ContentfulRichTextAssets_type; ContentfulRichTextEntries_type;
    ContentfulRichTextLinks_type; ContentfulRichText_type;
    ContentfulLocation_type; ContentfulText_type ].

(** The keys of the translated fields of a content type, in order. *)
Definition model_keys (item : ContentTypeItem.t) : list string :=
  field_key <$> List.filter enabled (ContentTypeItem.fields item).

(** The keys among them under which an assignment creates a property. *)
Definition own_keys (keys : list string) : list string :=
  List.filter (λ key, negb (key =? "__proto__")) keys.


(** The [sys.id] of a stored node is one of the extracted ids. *)
Definition id_among (ids : list string) (node : Node.t) : Prop :=
  match Node.sys_id node with
  | Some id => id ∈ ids
  | None => False
  end.

(** The three conditions the specification puts on a stored node. *)
Definition spec_selected (entityType : string) (ids : list string)
    (node : Node.t) : Prop :=
  Node.owner (Node.internal node) = "gatsby-source-contentful"
  ∧ Node.sys_type node = Some entityType
  ∧ id_among ids node.

(** The conditions of the callback: the id also has to be truthy. *)
Definition selected (entityType : string) (ids : list string)
    (node : Node.t) : Prop :=
  Node.owner (Node.internal node) = "gatsby-source-contentful"
  ∧ truthy (Node.sys_id node) = true
  ∧ Node.sys_type node = Some entityType
  ∧ id_among ids node.

#[global] Instance id_among_dec ids node : Decision (id_among ids node).
Proof. unfold id_among. destruct (Node.sys_id node); apply _. Defined.

#[global] Instance spec_selected_dec entityType ids node :
  Decision (spec_selected entityType ids node).
Proof. unfold spec_selected. apply _. Defined.

#[global] Instance selected_dec entityType ids node :
  Decision (selected entityType ids node).
Proof. unfold selected. apply _. Defined.

(** A content type with a model field called [id] next to a disabled and
    an omitted field. *)
Definition post_type : ContentTypeItem.t :=
  ContentTypeItem.mk (Some "Blog Post") {| ContentTypeItem.id := "post" |}
    [ plain_field (Some "id") "Symbol" false;
      plain_field (Some "title") "Symbol" true;
      Field.mk (Some "draft") "Boolean" false true false None None;
      Field.mk (Some "legacy") "Text" false false true None None ].

(** A content type with a field of a type that is not registered. *)
Definition broken_type : ContentTypeItem.t :=
  ContentTypeItem.mk None {| ContentTypeItem.id := "product" |}
    [ plain_field (Some "price") "Money" false ].

(** An asset node of this plugin whose id is the empty string. *)
Definition unnamed_asset : Node.t :=
  Node.mk {| Node.owner := "gatsby-source-contentful" |}
    (Some {| Node.id := Some ""; Node.type := Some "Asset" |}).

Definition links_to_unnamed (_ : unit) (_ : string) : EntityLinks.t :=
  EntityLinks.mk [ {| EntityLinks.id := "" |} ] [].

(** ** Vocabulary of the further properties *)

(** The fields on which the translator returns: every array down the
    [items] chain has items, and the chain ends in a link or in one of the
    registered types (the items of an array are not looked into when they
    are a link). *)
Fixpoint translatable (field : Field.t) : bool :=
  if Field.type field =? "Array" then
    match Field.items field with
    | None => false
    | Some items => (Field.type items =? "Link") || translatable items
    end
  else if Field.type field =? "Link" then true
  else bool_decide (Field.type field ∈ registered_types).

(** The same content type with other fields. *)
Definition with_fields (l : list Field.t) (item : ContentTypeItem.t)
  : ContentTypeItem.t :=
  ContentTypeItem.mk (ContentTypeItem.name item) (ContentTypeItem.sys item) l.

(** An array of text whose items carry no id, and a content type with a
    disabled field of a type that is not registered. *)
Definition paragraphs : Field.t :=
  Field.mk (Some "body") "Array" false false false None
    (Some (plain_field None "Text" false)).

Definition archived_type : ContentTypeItem.t :=
  ContentTypeItem.mk (Some "Archive") {| ContentTypeItem.id := "archive" |}
    [ plain_field (Some "title") "Symbol" true;
      Field.mk (Some "price") "Money" false true false None None ].

(** Every field that the loop translates is translatable. *)
Definition buildable (item : ContentTypeItem.t) : Prop :=
  Forall (λ field, enabled field = true → translatable field = true)
    (ContentTypeItem.fields item).

(** The name the object type of a content type is given. *)
Definition type_name (makeTypeName : option string → string)
    (pluginConfig : string → bool) (item : ContentTypeItem.t) : string :=
  makeTypeName
    (if pluginConfig "useNameForId"
     then ContentTypeItem.name item
     else Some (ContentTypeItem.id (ContentTypeItem.sys item))).

(** A content type without its disabled and omitted fields. *)
Definition without_skipped (item : ContentTypeItem.t) : ContentTypeItem.t :=
  with_fields (List.filter enabled (ContentTypeItem.fields item)) item.

(** A content type whose two fields share the id [title]. *)
Definition retitled_type : ContentTypeItem.t :=
  ContentTypeItem.mk (Some "Page") {| ContentTypeItem.id := "page" |}
    [ plain_field (Some "title") "Symbol" false;
      plain_field (Some "title") "Text" true ].

(** The keys of the asset type that do not depend on the configuration. *)
Definition asset_field_names : list string :=
  [ "contentful_id"; "id"; "gatsbyImageData"; "sys"; "title"; "description";
    "contentType"; "fileName"; "url"; "size"; "width"; "height"; "metadata" ].

(** A document in which the unnamed asset is linked twice, and an entry node
    of another plugin. *)
Definition links_twice (_ : unit) (_ : string) : EntityLinks.t :=
  EntityLinks.mk
    [ {| EntityLinks.id := "a1" |}; {| EntityLinks.id := "a1" |} ] [].

(** Two documents: one links the asset [a1] twice, the other once. *)
Definition links_of (source : bool) (nodeType : string) : EntityLinks.t :=
  if source then links_twice tt nodeType
  else EntityLinks.mk [ {| EntityLinks.id := "a1" |} ] [].

Definition asset_a1 : Node.t :=
  Node.mk {| Node.owner := "gatsby-source-contentful" |}
    (Some {| Node.id := Some "a1"; Node.type := Some "Asset" |}).

Definition foreign_a1 : Node.t :=
  Node.mk {| Node.owner := "gatsby-source-filesystem" |}
    (Some {| Node.id := Some "a1"; Node.type := Some "Asset" |}).

(** A type string that opens with a list bracket. *)
Definition is_list_type (type : string) : bool :=
  match type with
  | String c _ => Ascii.eqb c "["
  | EmptyString => false
  end.

(** ** Properties of the field translator *)

Section Translator.
Implicit Types (field items : Field.t) (d : Descriptor.t).

(** One unfolding of the translator, branch by branch. *)
Lemma translateFieldType_unfold field :
  translateFieldType field =
  fieldType ←
    (if Field.type field =? "Array" then
       match Field.items field with
       | None => Throw (TypeError read_type_of_undefined)
       | Some items =>
           fieldData ← fieldData_of field items;
           Normal (Descriptor.with_type fieldData
                     ("[" +:+ Descriptor.type fieldData +:+ "]"))
       end
     else if Field.type field =? "Link" then
       Normal (getLinkFieldType (Field.linkType field) field)
     else
       match ContentfulDataTypes !! Field.type field with
       | Some make => Normal (make field)
       | None => Throw (TypeError not_a_function)
       end);
  Normal (apply_required field fieldType).
Proof. destruct field; reflexivity. Qed.

Lemma translate_array field items :
  Field.type field = "Array" → Field.items field = Some items →
  translateFieldType field =
  fieldData ← fieldData_of field items;
  Normal (apply_required field
            (Descriptor.with_type fieldData
               ("[" +:+ Descriptor.type fieldData +:+ "]"))).
Proof.
  intros Hty Hit. rewrite translateFieldType_unfold, Hty, Hit. simpl.
  destruct (fieldData_of field items); reflexivity.
Qed.

Lemma translate_link field :
  Field.type field = "Link" →
  translateFieldType field =
  Normal (apply_required field (getLinkFieldType (Field.linkType field) field)).
Proof. intros Hty. rewrite translateFieldType_unfold, Hty. reflexivity. Qed.

Lemma translate_primitive field :
  Field.type field ≠ "Array" → Field.type field ≠ "Link" →
  translateFieldType field =
  match ContentfulDataTypes !! Field.type field with
  | Some make => Normal (apply_required field (make field))
  | None => Throw (TypeError not_a_function)
  end.
Proof.
  intros Ha Hl. rewrite translateFieldType_unfold.
  apply String.eqb_neq in Ha, Hl. rewrite Ha, Hl.
  destruct (ContentfulDataTypes !! Field.type field); reflexivity.
Qed.

(** The dispatch table has an entry exactly for the registered names. *)
Lemma dispatch_registered ty :
  is_Some (ContentfulDataTypes !! ty) ↔ ty ∈ registered_types.
Proof.
  unfold ContentfulDataTypes, registered_types. split.
  - intros [make Hmake]. apply elem_of_list_to_map_2 in Hmake.
    apply (list_elem_of_fmap_2 fst) in Hmake. exact Hmake.
  - intros Hin. apply not_eq_None_Some. intros Hnone.
    apply not_elem_of_list_to_map_2 in Hnone. apply Hnone. exact Hin.
Qed.

Lemma append_assoc (s1 s2 s3 : string) :
  (s1 +:+ s2) +:+ s3 = s1 +:+ (s2 +:+ s3).
Proof.
  induction s1 as [|c s1 IH]; [reflexivity|].
  change (String c ((s1 +:+ s2) +:+ s3) = String c (s1 +:+ (s2 +:+ s3))).
  by rewrite IH.
Qed.

Lemma append_nil_r (s : string) : s +:+ "" = s.
Proof.
  induction s as [|c s IH]; [reflexivity|].
  change (String c (s +:+ "") = String c s). by rewrite IH.
Qed.

Lemma count_bang_app s1 s2 :
  count_bang (s1 +:+ s2) = count_bang s1 + count_bang s2.
Proof.
  induction s1 as [|c s1 IH]; [reflexivity|].
  change (count_bang (String c (s1 +:+ s2))
          = count_bang (String c s1) + count_bang s2).
  simpl. rewrite IH. lia.
Qed.

(** The element descriptor of an array does not read the field-level flag. *)
Lemma fieldData_of_required b field items :
  fieldData_of (with_required b field) items = fieldData_of field items.
Proof. unfold fieldData_of. destruct (Field.type items =? "Link"); reflexivity. Qed.

(** C1. For an array field whose own [required] flag is set, the result is
    the element descriptor with its type string put in list brackets and one
    [!] after the closing bracket: the flag adds exactly one [!], at the very
    end, and the element descriptor is computed without looking at it. *)
Theorem required_array_outermost field items :
  Field.type field = "Array" →
  Field.items field = Some items →
  Field.required field = true →
  translateFieldType field =
    (fieldData ← fieldData_of field items;
     Normal {| Descriptor.type := "[" +:+ Descriptor.type fieldData +:+ "]!";
               Descriptor.extensions := Descriptor.extensions fieldData |})
  ∧ (∀ fieldData d,
       fieldData_of field items = Normal fieldData →
       translateFieldType field = Normal d →
       count_bang (Descriptor.type d)
       = count_bang (Descriptor.type fieldData) + 1)
  ∧ (∀ b, fieldData_of (with_required b field) items = fieldData_of field items).
Proof.
  intros Hty Hit Hreq.
  assert (Heq : translateFieldType field =
    (fieldData ← fieldData_of field items;
     Normal {| Descriptor.type := "[" +:+ Descriptor.type fieldData +:+ "]!";
               Descriptor.extensions := Descriptor.extensions fieldData |})).
  { rewrite (translate_array field items Hty Hit).
    unfold apply_required. rewrite Hreq.
    destruct (fieldData_of field items) as [fd|e]; simpl; [|reflexivity].
    unfold Descriptor.with_type; simpl.
    rewrite !append_assoc. reflexivity. }
  split; [exact Heq|]. split.
  - intros fd d Hfd Hd. rewrite Heq, Hfd in Hd. simpl in Hd.
    injection Hd as <-. cbn [Descriptor.type].
    rewrite !count_bang_app.
    change (count_bang "[") with 0. change (count_bang "]!") with 1. lia.
  - intros b. apply fieldData_of_required.
Qed.

(** C2. An array whose items are links takes the link descriptor built from
    [items.linkType] and the id of the array field itself, puts its type
    string in list brackets and keeps the [link] extension. *)
Theorem array_of_links field items :
  Field.type field = "Array" →
  Field.items field = Some items →
  Field.type items = "Link" →
  translateFieldType field =
    Normal
      {| Descriptor.type :=
           "[Contentful" +:+ template (Field.linkType items) +:+ "]"
           +:+ (if Field.required field then "!" else "");
         Descriptor.extensions :=
           Some {[ "link" :=
                     ({[ "by" := "id";
                         "from" := template (Field.id field) +:+ "___NODE" ]}
                      : props) ]} |}.
Proof.
  intros Hty Hit Hlink.
  rewrite (translate_array field items Hty Hit).
  unfold fieldData_of, apply_required. rewrite Hlink. simpl.
  unfold Descriptor.with_type, link_extension. simpl.
  destruct (Field.required field); simpl.
  - rewrite !append_assoc. reflexivity.
  - rewrite !append_assoc. reflexivity.
Qed.

(** C3. A link field yields [Contentful] followed by its link type, with the
    [link] extension reading from [<id>___NODE]; the type string ends in [!]
    exactly when the field is required. *)
Theorem link_field_translation field :
  Field.type field = "Link" →
  translateFieldType field =
    Normal
      {| Descriptor.type :=
           "Contentful" +:+ template (Field.linkType field)
           +:+ (if Field.required field then "!" else "");
         Descriptor.extensions :=
           Some {[ "link" :=
                     ({[ "by" := "id";
                         "from" := template (Field.id field) +:+ "___NODE" ]}
                      : props) ]} |}.
Proof.
  intros Hty. rewrite (translate_link field Hty).
  unfold apply_required, getLinkFieldType, Descriptor.with_type, link_extension.
  destruct (Field.required field); simpl; [reflexivity|].
  rewrite append_nil_r. reflexivity.
Qed.

(** C4. For each of the nine registered primitive types the translator
    returns the descriptor listed for that type, and appends one [!] to its
    type string when the field is required: the result then holds exactly one
    [!], and none otherwise. *)
Theorem registered_primitive_translation field :
  Field.type field ∈ registered_types →
  ∃ d,
    spec_primitive_descriptor (Field.type field) (Field.id field) = Some d
    ∧ translateFieldType field =
        Normal (if Field.required field
                then {| Descriptor.type := Descriptor.type d +:+ "!";
                        Descriptor.extensions := Descriptor.extensions d |}
                else d)
    ∧ ∀ r, translateFieldType field = Normal r →
           count_bang (Descriptor.type r)
           = if Field.required field then 1 else 0.
Proof.
  unfold registered_types. intros Hin.
  repeat (apply elem_of_cons in Hin as [Hin|Hin]);
    try (by apply elem_of_nil in Hin);
    (rewrite translate_primitive by (rewrite Hin; discriminate));
    rewrite Hin; unfold apply_required;
    (eexists; split; [reflexivity|]);
    destruct (Field.required field);
    (split; [reflexivity|]); intros r [= <-]; reflexivity.
Qed.

(** C9. A field that is neither an array nor a link makes the translator
    throw exactly when its type is not one of the nine registered names, and
    return a descriptor exactly when it is: the table has no default case. *)
Theorem unregistered_type_throws field :
  Field.type field ≠ "Array" →
  Field.type field ≠ "Link" →
  (translateFieldType field = Throw (TypeError not_a_function)
   ↔ Field.type field ∉ registered_types)
  ∧ ((∃ d, translateFieldType field = Normal d)
     ↔ Field.type field ∈ registered_types).
Proof.
  intros Ha Hl. rewrite (translate_primitive field Ha Hl).
  pose proof (dispatch_registered (Field.type field)) as Hreg.
  destruct (ContentfulDataTypes !! Field.type field) as [make|] eqn:Hget.
  - assert (Hin : Field.type field ∈ registered_types) by (apply Hreg; eauto).
    split; split; try done; eauto.
  - assert (Hout : Field.type field ∉ registered_types).
    { intros Hin. apply Hreg in Hin. by destruct Hin. }
    split; split; try done. by intros [d ?].
Qed.

(** Induction on a field along its [items]. *)
Lemma field_ind (P : Field.t → Prop) :
  (∀ id type required disabled omitted linkType,
     P (Field.mk id type required disabled omitted linkType None)) →
  (∀ id type required disabled omitted linkType items,
     P items →
     P (Field.mk id type required disabled omitted linkType (Some items))) →
  ∀ field, P field.
Proof.
  intros Hleaf Hnode. fix IH 1.
  intros [id type required disabled omitted linkType [items|]].
  - apply Hnode, IH.
  - apply Hleaf.
Qed.

Lemma translatable_unfold field :
  translatable field =
  if Field.type field =? "Array" then
    match Field.items field with
    | None => false
    | Some items => (Field.type items =? "Link") || translatable items
    end
  else if Field.type field =? "Link" then true
  else bool_decide (Field.type field ∈ registered_types).
Proof. destruct field; reflexivity. Qed.

(** The outcome of the translator against [translatable], with the two
    errors it can throw. *)
Lemma translate_cases field :
  match translateFieldType field with
  | Normal _ => translatable field = true
  | Throw e =>
      translatable field = false
      ∧ (e = TypeError not_a_function ∨ e = TypeError read_type_of_undefined)
  end.
Proof.
  induction field as [id type required disabled omitted linkType
                     |id type required disabled omitted linkType items IH]
    using field_ind;
    rewrite translateFieldType_unfold, translatable_unfold;
    cbn [Field.type Field.items];
    (destruct (type =? "Array") eqn:Harr;
     [| destruct (type =? "Link") eqn:Hlink; [reflexivity|] ]).
  - simpl. split; [reflexivity | by right].
  - pose proof (dispatch_registered type) as Hreg.
    destruct (ContentfulDataTypes !! type) as [make|]; simpl.
    + apply bool_decide_eq_true, Hreg. eauto.
    + split; [|by left]. apply bool_decide_eq_false.
      intros Hin. apply Hreg in Hin. by destruct Hin.
  - unfold fieldData_of.
    destruct (Field.type items =? "Link"); [reflexivity|].
    destruct (translateFieldType items) as [fd|e]; simpl; exact IH.
  - pose proof (dispatch_registered type) as Hreg.
    destruct (ContentfulDataTypes !! type) as [make|]; simpl.
    + apply bool_decide_eq_true, Hreg. eauto.
    + split; [|by left]. apply bool_decide_eq_false.
      intros Hin. apply Hreg in Hin. by destruct Hin.
Qed.

(** An error of the translator is a [TypeError] whose stack was never read. *)
Lemma translate_throws_fresh field e :
  translateFieldType field = Throw e → name e = "TypeError" ∧ stack e = None.
Proof.
  intros He. pose proof (translate_cases field) as Hcase.
  rewrite He in Hcase. by destruct Hcase as [_ [-> | ->]].
Qed.

End Translator.

(** *** The examples of the specification *)

Lemma required_array_outermost_witness :
  Field.type required_symbols = "Array"
  ∧ Field.required required_symbols = true
  ∧ translateFieldType required_symbols = Normal (Descriptor.mk "[String]!" None).
Proof.
  split; [reflexivity|]. split; [reflexivity|].
  destruct (required_array_outermost required_symbols
              (plain_field None "Symbol" false) eq_refl eq_refl eq_refl)
    as [Heq _].
  rewrite Heq. reflexivity.
Defined.

Lemma array_of_links_witness :
  translateFieldType cover_assets =
  Normal
    {| Descriptor.type := "[ContentfulAsset]";
       Descriptor.extensions :=
         Some {[ "link" := ({[ "by" := "id"; "from" := "cover___NODE" ]}
                            : props) ]} |}.
Proof.
  exact (array_of_links cover_assets
           (Field.mk None "Link" false false false (Some "Asset") None)
           eq_refl eq_refl eq_refl).
Defined.

Lemma link_field_translation_witness :
  translateFieldType author_entry =
  Normal
    {| Descriptor.type := "ContentfulEntry!";
       Descriptor.extensions :=
         Some {[ "link" := ({[ "by" := "id"; "from" := "author___NODE" ]}
                            : props) ]} |}.
Proof. exact (link_field_translation author_entry eq_refl). Defined.

Lemma registered_primitive_translation_witness :
  ∃ d,
    spec_primitive_descriptor "Text" (Some "body") = Some d
    ∧ translateFieldType (plain_field (Some "body") "Text" true) =
        Normal {| Descriptor.type := Descriptor.type d +:+ "!";
                  Descriptor.extensions := Descriptor.extensions d |}
    ∧ ∀ r, translateFieldType (plain_field (Some "body") "Text" true) = Normal r →
           count_bang (Descriptor.type r) = 1.
Proof.
  apply (registered_primitive_translation (plain_field (Some "body") "Text" true)).
  apply (bool_decide_unpack _). reflexivity.
Defined.

Lemma unregistered_type_throws_witness :
  translateFieldType (plain_field (Some "price") "Money" false)
  = Throw (TypeError not_a_function).
Proof.
  destruct (unregistered_type_throws (plain_field (Some "price") "Money" false))
    as [[_ Hthrow] _]; [discriminate | discriminate |].
  apply Hthrow. apply (bool_decide_unpack _). reflexivity.
Defined.

(** ** Properties of the schema assembler *)

Section FieldMap.
Implicit Types (l : list Field.t) (m : gmap string Descriptor.t) (k : string).

Lemma model_field_cons k field l :
  model_field k (field :: l) =
  match model_field k l with
  | Some later => Some later
  | None => if enabled field && (field_key field =? k) then Some field else None
  end.
Proof.
  unfold model_field. simpl.
  destruct (enabled field && (field_key field =? k)).
  - rewrite last_cons. by destruct (last _).
  - by destruct (last _).
Qed.

Lemma model_field_Some k l field :
  model_field k l = Some field →
  field ∈ l ∧ enabled field = true ∧ field_key field = k.
Proof.
  induction l as [|x l IH]; [discriminate|].
  rewrite model_field_cons.
  destruct (model_field k l) as [later|].
  - intros [= ->]. destruct IH as (Hin & ? & ?); [reflexivity|].
    split; [by apply list_elem_of_further | done].
  - destruct (enabled x && (field_key x =? k)) eqn:Hp; [|discriminate].
    intros [= ->]. apply andb_true_iff in Hp as [He Hk].
    apply String.eqb_eq in Hk. split; [apply list_elem_of_here | done].
Qed.

Lemma model_field_None k l :
  model_field k l = None ↔
  ∀ field, field ∈ l → enabled field = true → field_key field ≠ k.
Proof.
  induction l as [|x l IH].
  - split; [|reflexivity]. intros _ field Hin. by apply elem_of_nil in Hin.
  - rewrite model_field_cons. split.
    + destruct (model_field k l) as [later|]; [discriminate|].
      destruct (enabled x && (field_key x =? k)) eqn:Hp; [discriminate|].
      intros _ field Hin He Hk.
      apply elem_of_cons in Hin as [->|Hin].
      * apply String.eqb_eq in Hk. by rewrite He, Hk in Hp.
      * destruct IH as [IH _]. by apply (IH eq_refl field).
    + intros Hall.
      destruct IH as [_ IH]. rewrite IH.
      * destruct (enabled x) eqn:He; [|reflexivity].
        destruct (field_key x =? k) eqn:Hk; [|reflexivity].
        apply String.eqb_eq in Hk. exfalso.
        by apply (Hall x (list_elem_of_here _ _) He).
      * intros field Hin. apply Hall. by apply list_elem_of_further.
Qed.

(** What the loop over the fields leaves under each key but [__proto__]. *)
Lemma forEach_field_lookup l : ∀ m m',
  forEach_field l m = Normal m' →
  ∀ k, k ≠ "__proto__" →
    match model_field k l with
    | Some field =>
        ∃ d, translateFieldType field = Normal d ∧ m' !! k = Some d
    | None => m' !! k = m !! k
    end.
Proof.
  induction l as [|x l IH]; intros m m' Hrun k Hproto.
  - injection Hrun as <-. reflexivity.
  - rewrite model_field_cons. simpl in Hrun.
    unfold enabled.
    destruct (Field.disabled x || Field.omitted x) eqn:Hskip.
    + specialize (IH _ _ Hrun k Hproto).
      destruct (model_field k l); simpl; exact IH.
    + destruct (translateFieldType x) as [d|e] eqn:Hx; [|discriminate].
      simpl in Hrun. specialize (IH _ _ Hrun k Hproto).
      destruct (model_field k l) as [later|]; [exact IH|].
      simpl. fold (field_key x) in IH. unfold assign in IH.
      destruct (field_key x =? k) eqn:Hk.
      * apply String.eqb_eq in Hk. subst k.
        apply String.eqb_neq in Hproto. rewrite Hproto in IH.
        exists d. split; [exact Hx|]. by rewrite IH, lookup_insert_eq.
      * apply String.eqb_neq in Hk.
        destruct (field_key x =? "__proto__"); [exact IH|].
        by rewrite IH, lookup_insert_ne.
Qed.

(** The loop over the fields never writes the key [__proto__]. *)
Lemma forEach_field_proto l : ∀ m m',
  forEach_field l m = Normal m' → m' !! "__proto__" = m !! "__proto__".
Proof.
  induction l as [|x l IH]; intros m m' Hrun.
  - by injection Hrun as <-.
  - simpl in Hrun.
    destruct (Field.disabled x || Field.omitted x); [by apply IH|].
    destruct (translateFieldType x) as [d|e]; [|discriminate].
    simpl in Hrun. rewrite (IH _ _ Hrun). unfold assign.
    destruct (template (Field.id x) =? "__proto__") eqn:Hk; [reflexivity|].
    apply String.eqb_neq in Hk. by rewrite lookup_insert_ne.
Qed.

(** The keys the loop over the fields writes. *)
Lemma forEach_field_dom l : ∀ m m',
  forEach_field l m = Normal m' →
  dom m' = dom m ∪ list_to_set (own_keys (field_key <$> List.filter enabled l)).
Proof.
  induction l as [|x l IH]; intros m m' Hrun.
  - injection Hrun as <-. simpl. set_solver.
  - simpl in Hrun. simpl. unfold enabled at 1.
    destruct (Field.disabled x || Field.omitted x) eqn:Hskip; simpl.
    + by apply IH.
    + destruct (translateFieldType x) as [d|e] eqn:Hx; [|discriminate].
      simpl in Hrun. rewrite (IH _ _ Hrun). unfold assign, own_keys.
      simpl. fold (field_key x).
      destruct (field_key x =? "__proto__"); simpl.
      * reflexivity.
      * rewrite dom_insert_L. set_solver.
Qed.

End FieldMap.

Section Assembly.

Variable makeTypeName : option string → string.
Variable addRemoteFilePolyfillInterface : TypeDecl → list TypeDecl.
Implicit Types (pluginConfig : string → bool) (w : World).
Implicit Types (item : ContentTypeItem.t) (decl : TypeDecl).

Local Abbreviation object_of := (contentTypeObject makeTypeName).
Local Abbreviation built_of := (built makeTypeName).
Local Abbreviation failure_of := (first_failure makeTypeName).
Local Abbreviation generic_of :=
  (generic_decls addRemoteFilePolyfillInterface).
Local Abbreviation generate :=
  (generateSchema makeTypeName addRemoteFilePolyfillInterface).

(** The object of a content type, once its fields have been translated. *)
Lemma contentTypeObject_Normal pluginConfig item decl :
  object_of pluginConfig item = Normal decl →
  ∃ fields,
    forEach_field (ContentTypeItem.fields item) ∅ = Normal fields
    ∧ decl_fields decl = spread fixed_fields (FieldDescriptor <$> fields)
    ∧ decl_interfaces decl
      = Some ["ContentfulReference"; "ContentfulEntry"; "Node"]
    ∧ dontInfer decl = true.
Proof.
  unfold contentTypeObject.
  destruct (forEach_field _ ∅) as [fields|e]; [|discriminate].
  simpl. intros [= <-]. exists fields. by repeat split.
Qed.

Lemma built_spec pluginConfig l item decl :
  (item, decl) ∈ built_of pluginConfig l →
  item ∈ l ∧ object_of pluginConfig item = Normal decl.
Proof.
  induction l as [|x l IH]; simpl.
  - intros Hin. by apply elem_of_nil in Hin.
  - destruct (object_of pluginConfig x) as [d|e] eqn:Hx.
    + intros [[= -> ->]|Hin]%elem_of_cons.
      * split; [apply list_elem_of_here | exact Hx].
      * destruct (IH Hin). split; [by apply list_elem_of_further | done].
    + intros Hin. by apply elem_of_nil in Hin.
Qed.

(** The loop over the content types: it registers the objects built before
    the first failure, then logs and throws the annotated error. *)
Lemma forEach_contentType_run pluginConfig l : ∀ w,
  forEach_contentType makeTypeName pluginConfig l w =
  match failure_of pluginConfig l with
  | None =>
      ({| registry := registry w ++ (built_of pluginConfig l).*2;
          console := console w |}, Normal tt)
  | Some (item, err) =>
      ({| registry := registry w ++ (built_of pluginConfig l).*2;
          console := console w ++ [(read_stack (annotate item err)).1] |},
       Throw (read_stack (annotate item err)).2)
  end.
Proof.
  induction l as [|x l IH]; intros w.
  - simpl. rewrite app_nil_r. by destruct w.
  - simpl. unfold mbind, action_bind, try_catch, lift.
    destruct (object_of pluginConfig x) as [d|e]; simpl.
    + rewrite IH. simpl.
      destruct (failure_of pluginConfig l) as [[item err]|];
        by rewrite <- app_assoc.
    + destruct (read_stack (annotate x e)) as [text e']. simpl.
      by rewrite app_nil_r.
Qed.

Lemma generic_types_run pluginConfig w :
  generic_types addRemoteFilePolyfillInterface pluginConfig w =
  ({| registry := registry w ++ generic_of pluginConfig;
      console := console w |}, Normal tt).
Proof.
  unfold generic_types, generic_decls, mbind, action_bind, createTypes.
  simpl. repeat rewrite <- app_assoc. reflexivity.
Qed.

Lemma generateSchema_run pluginConfig l w :
  generate pluginConfig l w =
  match failure_of pluginConfig l with
  | None =>
      ({| registry :=
            registry w ++ generic_of pluginConfig
            ++ (built_of pluginConfig l).*2;
          console := console w |}, Normal tt)
  | Some (item, err) =>
      ({| registry :=
            registry w ++ generic_of pluginConfig
            ++ (built_of pluginConfig l).*2;
          console := console w ++ [(read_stack (annotate item err)).1] |},
       Throw (read_stack (annotate item err)).2)
  end.
Proof.
  unfold generateSchema, mbind, action_bind.
  rewrite generic_types_run, forEach_contentType_run. simpl.
  destruct (failure_of pluginConfig l) as [[item err]|];
    by rewrite <- app_assoc.
Qed.

Lemma generateSchema_registry pluginConfig l w :
  registry (generate pluginConfig l w).1 =
  registry w ++ generic_of pluginConfig ++ (built_of pluginConfig l).*2.
Proof.
  rewrite generateSchema_run.
  by destruct (failure_of pluginConfig l) as [[item err]|].
Qed.

Lemma dom_fixed_fields : dom fixed_fields = list_to_set fixed_names.
Proof.
  unfold fixed_fields, fixed_names.
  rewrite !dom_insert_L, dom_singleton_L. set_solver.
Qed.

Lemma decl_fields_dom pluginConfig item decl :
  object_of pluginConfig item = Normal decl →
  dom (decl_fields decl)
  = list_to_set fixed_names ∪ list_to_set (own_keys (model_keys item)).
Proof.
  intros (fields & Hrun & -> & _)%contentTypeObject_Normal.
  unfold spread. rewrite dom_union_L, dom_fmap_L, dom_fixed_fields.
  rewrite (forEach_field_dom _ _ _ Hrun), dom_empty_L.
  unfold model_keys. set_solver.
Qed.

Lemma decl_fields_lookup pluginConfig item decl k :
  object_of pluginConfig item = Normal decl →
  k ≠ "__proto__" →
  match model_field k (ContentTypeItem.fields item) with
  | Some field =>
      ∃ d, translateFieldType field = Normal d
           ∧ decl_fields decl !! k = Some (FieldDescriptor d)
  | None => decl_fields decl !! k = fixed_fields !! k
  end.
Proof.
  intros (fields & Hrun & -> & _)%contentTypeObject_Normal Hproto.
  pose proof (forEach_field_lookup _ _ _ Hrun k Hproto) as Hk.
  unfold spread.
  destruct (model_field k (ContentTypeItem.fields item)) as [field|].
  - destruct Hk as (d & Hd & Hget). exists d. split; [exact Hd|].
    apply lookup_union_Some_l. by rewrite lookup_fmap, Hget.
  - rewrite lookup_empty in Hk.
    apply lookup_union_r. by rewrite lookup_fmap, Hk.
Qed.

Lemma decl_fields_proto pluginConfig item decl :
  object_of pluginConfig item = Normal decl →
  decl_fields decl !! "__proto__" = None.
Proof.
  intros (fields & Hrun & -> & _)%contentTypeObject_Normal.
  unfold spread. apply lookup_union_None. split; [|reflexivity].
  by rewrite lookup_fmap, (forEach_field_proto _ _ _ Hrun), lookup_empty.
Qed.

(** X18. The field map of the object type of a content type has exactly
    the keys [id], [sys], [metadata] and the ids, other than [__proto__], of
    the fields that are neither disabled nor omitted, and one entry for each
    when these ids are distinct; it never has the key [__proto__]; the type
    implements [ContentfulReference], [ContentfulEntry] and [Node]. *)
Theorem field_map_keys pluginConfig item decl :
  object_of pluginConfig item = Normal decl →
  dom (decl_fields decl)
  = list_to_set fixed_names ∪ list_to_set (own_keys (model_keys item))
  ∧ (NoDup (fixed_names ++ own_keys (model_keys item)) →
     size (decl_fields decl) = 3 + length (own_keys (model_keys item)))
  ∧ decl_fields decl !! "__proto__" = None
  ∧ decl_interfaces decl
    = Some ["ContentfulReference"; "ContentfulEntry"; "Node"].
Proof.
  intros Hobj.
  pose proof (decl_fields_dom _ _ _ Hobj) as Hdom.
  split; [exact Hdom|split; [|split]].
  - intros [Hfixed [Hdisj Hkeys]]%NoDup_app.
    transitivity (size (dom (decl_fields decl))); [symmetry; apply size_dom|].
    rewrite Hdom, size_union.
    + by rewrite !size_list_to_set.
    + intros x Hx%elem_of_list_to_set Hy%elem_of_list_to_set.
      by apply (Hdisj x).
  - by apply (decl_fields_proto pluginConfig item).
  - by apply contentTypeObject_Normal in Hobj as (? & _ & _ & ? & _).
Qed.

(** C10. When a translated field of the content type is called [id], [sys]
    or [metadata], the generated type declares that key with the descriptor
    translated from the model field (the last such field, which is the field
    itself when no other shares its id); the fixed declaration is kept only
    when no translated field has that id. *)
Theorem model_field_overrides_fixed pluginConfig l item decl k :
  (item, decl) ∈ built_of pluginConfig l →
  k ∈ fixed_names →
  (∀ field,
     field ∈ ContentTypeItem.fields item → enabled field = true →
     field_key field = k →
     ∃ winner d,
       model_field k (ContentTypeItem.fields item) = Some winner
       ∧ winner ∈ ContentTypeItem.fields item
       ∧ enabled winner = true ∧ field_key winner = k
       ∧ ((∀ other, other ∈ ContentTypeItem.fields item →
                    enabled other = true → field_key other = k →
                    other = field) → winner = field)
       ∧ translateFieldType winner = Normal d
       ∧ decl_fields decl !! k = Some (FieldDescriptor d))
  ∧ ((∀ field, field ∈ ContentTypeItem.fields item → enabled field = true →
               field_key field ≠ k) →
     decl_fields decl !! k = fixed_fields !! k)
  ∧ fixed_fields !! "id" = Some (typed "ID!")
  ∧ fixed_fields !! "sys" = Some (typed "ContentfulSys!")
  ∧ fixed_fields !! "metadata" = Some (typed "ContentfulMetadata!").
Proof.
  intros [_ Hobj]%built_spec Hfixed.
  assert (Hproto : k ≠ "__proto__").
  { intros ->. revert Hfixed. by apply (bool_decide_unpack _). }
  pose proof (decl_fields_lookup _ _ _ k Hobj Hproto) as Hk.
  split; [|split; [|by repeat split]].
  - intros field Hfield He Hkey.
    destruct (model_field k (ContentTypeItem.fields item)) as [winner|] eqn:Hw.
    + destruct Hk as (d & Hd & Hget).
      destruct (model_field_Some _ _ _ Hw) as (Hwin & Hwe & Hwk).
      exists winner, d. repeat split; try done.
      intros Huniq. by apply Huniq.
    + exfalso. by apply (proj1 (model_field_None _ _) Hw field).
  - intros Hnone. apply model_field_None in Hnone. by rewrite Hnone in Hk.
Qed.

Lemma built_dontInfer pluginConfig l :
  Forall (λ decl, dontInfer decl = true) (built_of pluginConfig l).*2.
Proof.
  apply Forall_forall. intros decl Hin.
  apply list_elem_of_fmap in Hin as ([item decl'] & -> & Hin).
  apply built_spec in Hin as [_ Hobj].
  by apply contentTypeObject_Normal in Hobj as (? & _ & _ & _ & ?).
Qed.

(** C6, as the code has it. Inference is switched off for [ContentfulSys],
    [ContentfulEntry], [ContentfulMetadata], [ContentfulTag],
    [ContentfulRichText], [ContentfulLocation], [ContentfulText] and every
    content type; it is left on for [ContentfulReference],
    [ContentfulContentType], [ContentfulAsset] as handed to the remote-file
    helper, [ContentfulRichTextAssets], [ContentfulRichTextEntries] and
    [ContentfulRichTextLinks]. *)
Theorem dontInfer_declarations pluginConfig l w :
  registry (generate pluginConfig l w).1
  = registry w ++ generic_of pluginConfig ++ (built_of pluginConfig l).*2
  ∧ generic_of pluginConfig
    = take 6 (own_decls pluginConfig)
      ++ addRemoteFilePolyfillInterface (ContentfulAsset_type pluginConfig)
      ++ drop 7 (own_decls pluginConfig)
  ∧ own_decls pluginConfig !! 6%nat = Some (ContentfulAsset_type pluginConfig)
  ∧ (λ decl, (decl_name decl, dontInfer decl)) <$> own_decls pluginConfig
    = [ (Some "ContentfulReference", false);
        (Some "ContentfulContentType", false);
        (Some "ContentfulSys", true);
        (Some "ContentfulEntry", true);
        (Some "ContentfulMetadata", true);
        (Some "ContentfulTag", true);
        (Some "ContentfulAsset", false);
        (Some "ContentfulRichTextAssets", false);
        (Some "ContentfulRichTextEntries", false);
        (Some "ContentfulRichTextLinks", false);
        (Some "ContentfulRichText", true);
        (Some "ContentfulLocation", true);
        (Some "ContentfulText", true) ]
  ∧ Forall (λ decl, dontInfer decl = true) (built_of pluginConfig l).*2.
Proof.
  split; [apply generateSchema_registry|].
  split; [reflexivity|]. split; [reflexivity|].
  split; [reflexivity|]. apply built_dontInfer.
Qed.

Lemma built_prefix pluginConfig pre item post err :
  Forall (λ earlier, ∃ decl, object_of pluginConfig earlier = Normal decl) pre →
  object_of pluginConfig item = Throw err →
  built_of pluginConfig (pre ++ item :: post) = built_of pluginConfig pre
  ∧ failure_of pluginConfig (pre ++ item :: post) = Some (item, err)
  ∧ (built_of pluginConfig pre).*1 = pre.
Proof.
  intros Hpre Hitem. induction Hpre as [|x pre [d Hx] _ IH]; simpl.
  - by rewrite Hitem.
  - rewrite Hx. destruct IH as (-> & -> & IH).
    repeat split. rewrite fmap_cons. simpl. by f_equal.
Qed.

Lemma contentTypeObject_throws_fresh pluginConfig item err :
  object_of pluginConfig item = Throw err →
  name err = "TypeError" ∧ stack err = None.
Proof.
  unfold contentTypeObject.
  destruct (forEach_field (ContentTypeItem.fields item) ∅) as [m|e] eqn:Hrun;
    [discriminate|].
  simpl. intros [= ->]. revert Hrun. generalize (∅ : gmap string Descriptor.t).
  induction (ContentTypeItem.fields item) as [|x fs IH]; intros m;
    [discriminate|].
  simpl. destruct (Field.disabled x || Field.omitted x); [apply IH|].
  destruct (translateFieldType x) as [d|e] eqn:Hx; simpl; [apply IH|].
  intros [= ->]. by apply (translate_throws_fresh x).
Qed.

(** C7. When the object of a content type cannot be built, the message of
    the error becomes the name of the content type (its [sys.id] when the
    name is absent or empty) followed by the original message; the stack,
    read after that, is printed with the new message in its first line, and
    the same error is thrown again.  The registry then holds the generic
    declarations and the objects of the content types before it, and nothing
    of the content types after it. *)
Theorem failing_content_type_aborts pluginConfig pre item post err w :
  Forall (λ earlier, ∃ decl, object_of pluginConfig earlier = Normal decl) pre →
  object_of pluginConfig item = Throw err →
  let annotated :=
    "Unable to create schema for Contentful Content Type "
    +:+ display_name item +:+ ":" +:+ newline +:+ message err in
  generate pluginConfig (pre ++ item :: post) w =
    ({| registry :=
          registry w ++ generic_of pluginConfig
          ++ (built_of pluginConfig pre).*2;
        console := console w ++ ["TypeError: " +:+ annotated] |},
     Throw {| name := "TypeError";
              message := annotated;
              stack := Some ("TypeError: " +:+ annotated) |})
  ∧ (built_of pluginConfig pre).*1 = pre
  ∧ display_name item
    = match ContentTypeItem.name item with
      | Some name =>
          if name =? "" then ContentTypeItem.id (ContentTypeItem.sys item)
          else name
      | None => ContentTypeItem.id (ContentTypeItem.sys item)
      end.
Proof.
  intros Hpre Hitem annotated.
  destruct (built_prefix _ _ _ post _ Hpre Hitem) as (Hbuilt & Hfail & Hfst).
  destruct (contentTypeObject_throws_fresh _ _ _ Hitem) as [Hname Hstack].
  split; [|split; [exact Hfst|]].
  - rewrite generateSchema_run, Hfail, Hbuilt.
    unfold read_stack, annotate. simpl. by rewrite Hstack, Hname.
  - unfold display_name, truthy.
    destruct (ContentTypeItem.name item) as [name|]; [|reflexivity].
    by destruct (name =? "").
Qed.

End Assembly.

(** *** Examples of the assembler *)


Lemma field_map_keys_witness :
  ∃ decl,
    contentTypeObject template (λ _, false) archived_type = Normal decl
    ∧ dom (decl_fields decl) = {[ "id"; "sys"; "metadata"; "title" ]}
    ∧ size (decl_fields decl) = 4.
Proof.
  destruct (contentTypeObject template (λ _, false) archived_type)
    as [decl|e] eqn:Hobj; [|by vm_compute in Hobj].
  destruct (field_map_keys template (λ decl, [decl]) (λ _, false)
              archived_type decl Hobj)
    as (Hdom & Hsize & _).
  exists decl. split; [reflexivity|]. split.
  - rewrite Hdom. by vm_compute.
  - rewrite Hsize; [reflexivity|].
    apply (bool_decide_unpack _). by vm_compute.
Defined.

Lemma model_field_overrides_fixed_witness :
  ∃ decl,
    contentTypeObject template (λ _, false) post_type = Normal decl
    ∧ decl_fields decl !! "id" = Some (typed "String")
    ∧ decl_fields decl !! "sys" = Some (typed "ContentfulSys!").
Proof.
  destruct (contentTypeObject template (λ _, false) post_type)
    as [decl|e] eqn:Hobj; [|by vm_compute in Hobj].
  assert (Hin : (post_type, decl)
                ∈ built template (λ _, false) [post_type]).
  { simpl. rewrite Hobj. apply list_elem_of_here. }
  exists decl. split; [reflexivity|]. split.
  - destruct (model_field_overrides_fixed template (λ _, false)
                [post_type] post_type decl "id" Hin)
      as (Hmodel & _); [by apply (bool_decide_unpack _)|].
    destruct (Hmodel (plain_field (Some "id") "Symbol" false))
      as (winner & d & Hwin & _ & _ & _ & _ & Hd & Hget);
      [apply list_elem_of_here | reflexivity | reflexivity |].
    vm_compute in Hwin. injection Hwin as <-.
    vm_compute in Hd. injection Hd as <-. exact Hget.
  - destruct (model_field_overrides_fixed template (λ _, false)
                [post_type] post_type decl "sys" Hin)
      as (_ & Hfixed & _ & Hsys & _); [by apply (bool_decide_unpack _)|].
    rewrite <- Hsys. apply Hfixed.
    intros field Hfield _ Hkey.
    repeat (apply elem_of_cons in Hfield as [->|Hfield]);
      try (by apply elem_of_nil in Hfield); by vm_compute in Hkey.
Defined.

Lemma failing_content_type_aborts_witness :
  generateSchema template (λ decl, [decl]) (λ _, false)
    [post_type; broken_type; post_type] empty_world
  = ({| registry :=
          generic_decls (λ decl, [decl]) (λ _, false)
          ++ (built template (λ _, false) [post_type]).*2;
        console :=
          [ "TypeError: Unable to create schema for Contentful Content Type product:"
            +:+ newline +:+ not_a_function ] |},
     Throw {| name := "TypeError";
              message :=
                "Unable to create schema for Contentful Content Type product:"
                +:+ newline +:+ not_a_function;
              stack :=
                Some ("TypeError: Unable to create schema for Contentful Content Type product:"
                      +:+ newline +:+ not_a_function) |}).
Proof.
  destruct (failing_content_type_aborts template (λ decl, [decl]) (λ _, false)
              [post_type] broken_type [post_type]
              (TypeError not_a_function) empty_world)
    as (Hrun & _).
  - apply Forall_cons. split; [|apply Forall_nil_2].
    destruct (contentTypeObject template (λ _, false) post_type)
      as [decl|e] eqn:Hobj; [by exists decl | by vm_compute in Hobj].
  - reflexivity.
  - exact Hrun.
Defined.

(** C6 as the specification states it fails: [ContentfulRichTextAssets] is
    declared without the extension and is neither of the two exceptions. *)
Lemma dontInfer_two_exceptions_counterexample :
  ¬ (∀ decl,
       decl ∈ registry (generateSchema template (λ decl, [decl]) (λ _, false)
                          [] empty_world).1 →
       decl_name decl ≠ Some "ContentfulReference" →
       decl_name decl ≠ Some "ContentfulContentType" →
       dontInfer decl = true).
Proof.
  intros Hall.
  specialize (Hall ContentfulRichTextAssets_type).
  assert (Hfalse : dontInfer ContentfulRichTextAssets_type = true);
    [|discriminate Hfalse].
  apply Hall; [|discriminate|discriminate].
  rewrite generateSchema_registry. unfold generic_decls. simpl.
  do 7 apply list_elem_of_further. apply list_elem_of_here.
Qed.

(** ** Properties of the rich-text link resolver *)

Section LinkResolver.

Variable Document : Type.
Variable getRichTextEntityLinks : Document → string → EntityLinks.t.
Implicit Types (node : Node.t) (ids : list string).

Lemma keeps_selected entityType ids node :
  keeps entityType ids node = true ↔ selected entityType ids node.
Proof.
  unfold keeps, selected, id_among.
  rewrite !andb_true_iff, String.eqb_eq, bool_decide_eq_true.
  destruct (Node.sys_id node) as [id|].
  - rewrite bool_decide_eq_true. tauto.
  - intuition discriminate.
Qed.

Lemma filter_reflect {A : Type} (f : A → bool) (P : A → Prop)
    `{!∀ x, Decision (P x)} (l : list A) :
  (∀ x, f x = true ↔ P x) → List.filter f l = filter P l.
Proof.
  intros Hf. induction l as [|x l IH]; [reflexivity|].
  simpl. rewrite filter_cons, IH.
  destruct (decide (P x)) as [Hx|Hx].
  - apply Hf in Hx. by rewrite Hx.
  - destruct (f x) eqn:Hfx; [|reflexivity]. by apply Hf in Hfx.
Qed.

(** The callback asks for the three conditions of the specification and
    for an id that is not the empty string. *)
Lemma selected_spec entityType ids node :
  selected entityType ids node
  ↔ spec_selected entityType ids node ∧ Node.sys_id node ≠ Some "".
Proof.
  unfold selected, spec_selected, id_among, truthy.
  destruct (Node.sys_id node) as [id|]; [|tauto].
  rewrite negb_true_iff, String.eqb_neq.
  split.
  - intros (? & Hid & ? & ?). repeat split; try done. by intros [= ->].
  - intros ((? & ? & ?) & Hid). repeat split; try done.
    intros ->. by apply Hid.
Qed.

(** When no extracted id is empty the two sets of conditions agree. *)
Lemma selected_nonempty_ids entityType ids node :
  "" ∉ ids → (selected entityType ids node ↔ spec_selected entityType ids node).
Proof.
  intros Hids. rewrite selected_spec. split; [tauto|].
  intros Hspec. split; [exact Hspec|].
  destruct Hspec as (_ & _ & Hid). unfold id_among in Hid.
  destruct (Node.sys_id node) as [id|]; [|done].
  intros [= ->]. by apply Hids.
Qed.

(** C8, as the code has it. The resolver of the [block] field of
    [ContentfulRichTextAssets] returns, in the order of the store, exactly
    the stored nodes owned by [gatsby-source-contentful] whose [sys.type] is
    [Asset] and whose [sys.id] is a non-empty string among the ids extracted
    from the document for [embedded-asset-block]. *)
Theorem asset_block_resolver (source : Document) (allNodes : list Node.t) :
  let ids :=
    EntityLinks.id
      <$> EntityLinks.Asset (getRichTextEntityLinks source "embedded-asset-block") in
  makeRichTextLinksResolver Document getRichTextEntityLinks
    "embedded-asset-block" "Asset" source allNodes
  = Normal (filter (λ node, spec_selected "Asset" ids node
                            ∧ Node.sys_id node ≠ Some "") allNodes)
  ∧ decl_fields ContentfulRichTextAssets_type !! "block"
    = Some (FieldResolved "[ContentfulAsset]!"
              (RichTextLinksResolver "embedded-asset-block" "Asset"))
  ∧ resolve Document getRichTextEntityLinks
      (RichTextLinksResolver "embedded-asset-block" "Asset") source allNodes
    = Normal (ResolvedNodes Document
                (filter (λ node, spec_selected "Asset" ids node
                                 ∧ Node.sys_id node ≠ Some "") allNodes)).
Proof.
  intros ids.
  assert (Hrun : makeRichTextLinksResolver Document getRichTextEntityLinks
                   "embedded-asset-block" "Asset" source allNodes
                 = Normal (filter (λ node, spec_selected "Asset" ids node
                                           ∧ Node.sys_id node ≠ Some "")
                             allNodes)).
  { unfold makeRichTextLinksResolver. simpl. f_equal.
    apply filter_reflect. intros node.
    rewrite keeps_selected. apply selected_spec. }
  split; [exact Hrun|]. split; [reflexivity|].
  unfold resolve. by rewrite Hrun.
Qed.

End LinkResolver.

Lemma asset_block_resolver_witness :
  makeRichTextLinksResolver unit links_to_unnamed
    "embedded-asset-block" "Asset" tt [unnamed_asset]
  = Normal [].
Proof.
  destruct (asset_block_resolver unit links_to_unnamed tt [unnamed_asset])
    as (Hrun & _).
  rewrite Hrun. reflexivity.
Defined.

Lemma dontInfer_declarations_witness :
  registry (generateSchema template (λ decl, [decl]) (λ _, false)
              [] empty_world).1
  = own_decls (λ _, false).
Proof.
  destruct (dontInfer_declarations template (λ decl, [decl]) (λ _, false)
              [] empty_world) as (Hreg & _).
  rewrite Hreg. reflexivity.
Defined.

(** C8 as the specification states it fails on a store that holds an asset
    of this plugin whose id is the empty string, for a document from which
    the empty id is extracted: the node meets the three conditions and the
    resolver leaves it out. *)
Lemma asset_block_three_conditions_counterexample :
  ¬ (∀ (Document : Type)
       (getRichTextEntityLinks : Document → string → EntityLinks.t)
       (source : Document) (allNodes : list Node.t),
       makeRichTextLinksResolver Document getRichTextEntityLinks
         "embedded-asset-block" "Asset" source allNodes
       = Normal
           (filter
              (spec_selected "Asset"
                 (EntityLinks.id
                    <$> EntityLinks.Asset
                          (getRichTextEntityLinks source "embedded-asset-block")))
              allNodes)).
Proof.
  intros Hall.
  specialize (Hall unit links_to_unnamed tt [unnamed_asset]).
  vm_compute in Hall. discriminate Hall.
Qed.

(** ** Further properties of the field translator *)

Section TranslatorMore.
Implicit Types (field items : Field.t) (d : Descriptor.t).

(** X1. The translator returns a descriptor exactly on the translatable
    fields; on any other field it throws one of two type errors: the call of
    a missing table entry, or the read of [type] on missing [items]. *)
Theorem translation_succeeds_iff_translatable field :
  ((∃ d, translateFieldType field = Normal d) ↔ translatable field = true)
  ∧ (∀ e, translateFieldType field = Throw e →
          e = TypeError not_a_function ∨ e = TypeError read_type_of_undefined).
Proof.
  pose proof (translate_cases field) as Hcase.
  destruct (translateFieldType field) as [d|e].
  - split; [split; eauto|]. intros e [=].
  - destruct Hcase as [Hno Herr]. split.
    + split; [by intros [d ?] | congruence].
    + by intros e' [= <-].
Qed.

(** No entry of the dispatch table reads the [required] flag. *)
Lemma dispatch_ignores_required ty make b field :
  ContentfulDataTypes !! ty = Some make →
  make (with_required b field) = make field.
Proof.
  unfold ContentfulDataTypes. intros Hget%elem_of_list_to_map_2.
  repeat (apply elem_of_cons in Hget as [Heq|Hget];
          [injection Heq as -> ->; reflexivity|]).
  by apply elem_of_nil in Hget.
Qed.

(** X2. For every kind of field the [required] flag does one thing only:
    the translation of a field is the translation of the same field with the
    flag cleared, with one [!] appended to its type string when the flag is
    set; in particular the flag never changes whether the translator throws. *)
Theorem required_only_appends_bang field :
  translateFieldType field =
    (d ← translateFieldType (with_required false field);
     Normal (if Field.required field
             then {| Descriptor.type := Descriptor.type d +:+ "!";
                     Descriptor.extensions := Descriptor.extensions d |}
             else d)).
Proof.
  rewrite (translateFieldType_unfold field).
  rewrite (translateFieldType_unfold (with_required false field)).
  cbn [with_required Field.type Field.items Field.linkType].
  destruct (Field.type field =? "Array").
  - destruct (Field.items field) as [items|]; [|reflexivity].
    rewrite fieldData_of_required.
    destruct (fieldData_of field items) as [fd|e]; [|reflexivity].
    simpl. unfold apply_required. simpl.
    by destruct (Field.required field).
  - destruct (Field.type field =? "Link").
    + simpl. unfold apply_required. simpl.
      by destruct (Field.required field).
    + destruct (ContentfulDataTypes !! Field.type field) as [make|] eqn:Hget;
        [|reflexivity].
      simpl. rewrite (dispatch_ignores_required _ _ _ _ Hget).
      unfold apply_required. simpl. by destruct (Field.required field).
Qed.

(** X3. An array whose items have a registered primitive type applies the
    table entry to the items, not to the array field: the element type takes
    the [!] of [items.required] inside the brackets, the extensions of the
    entry are kept, and an array of [Text] therefore links from the id of
    its items ([undefined___NODE] when the items carry none). *)
Theorem array_of_primitives field items make :
  Field.type field = "Array" →
  Field.items field = Some items →
  ContentfulDataTypes !! Field.type items = Some make →
  translateFieldType field =
    Normal
      {| Descriptor.type :=
           "[" +:+ Descriptor.type (make items)
           +:+ (if Field.required items then "!]" else "]")
           +:+ (if Field.required field then "!" else "");
         Descriptor.extensions := Descriptor.extensions (make items) |}.
Proof.
  intros Hty Hit Hget.
  assert (Hreg : Field.type items ∈ registered_types)
    by (apply dispatch_registered; eauto).
  assert (Hna : Field.type items ≠ "Array").
  { intros Heq. rewrite Heq in Hreg. revert Hreg.
    by apply (bool_decide_unpack _). }
  assert (Hnl : Field.type items ≠ "Link").
  { intros Heq. rewrite Heq in Hreg. revert Hreg.
    by apply (bool_decide_unpack _). }
  rewrite (translate_array field items Hty Hit). unfold fieldData_of.
  apply String.eqb_neq in Hnl as Hnl'. rewrite Hnl'.
  rewrite (translate_primitive items Hna Hnl), Hget. simpl.
  unfold apply_required, Descriptor.with_type.
  destruct (Field.required items), (Field.required field); simpl;
    rewrite ?append_assoc, ?append_nil_r; reflexivity.
Qed.

(** The extensions of the entries of the dispatch table. *)
Lemma dispatch_extensions ty make field :
  ContentfulDataTypes !! ty = Some make →
  Descriptor.extensions (make field) = None
  ∨ Descriptor.extensions (make field) = Some (link_extension field)
  ∨ Descriptor.extensions (make field)
    = Some {[ "dateformat" := (∅ : props) ]}.
Proof.
  unfold ContentfulDataTypes. intros Hget%elem_of_list_to_map_2.
  repeat (apply elem_of_cons in Hget as [Heq|Hget];
          [injection Heq as -> ->; simpl; tauto|]).
  by apply elem_of_nil in Hget.
Qed.

(** X6. Whatever the field, the extensions of its descriptor, when there
    are any, are a single directive: either [link], by [id] and from a key
    that ends in [___NODE], or an empty [dateformat]. *)
Theorem translation_extensions_shape field d ext :
  translateFieldType field = Normal d →
  Descriptor.extensions d = Some ext →
  (∃ id, ext = {[ "link" := ({[ "by" := "id";
                                "from" := id +:+ "___NODE" ]} : props) ]})
  ∨ ext = {[ "dateformat" := (∅ : props) ]}.
Proof.
  revert d ext.
  induction field as [id type required disabled omitted linkType
                     |id type required disabled omitted linkType items IH]
    using field_ind; intros d ext;
    rewrite translateFieldType_unfold; cbn [Field.type Field.items Field.linkType];
    (destruct (type =? "Array") eqn:Harr;
     [| destruct (type =? "Link") eqn:Hlink ]).
  - discriminate.
  - simpl. unfold apply_required. simpl.
    destruct required; intros [= <-] [= <-]; left; eauto.
  - destruct (ContentfulDataTypes !! type) as [make|] eqn:Hget; [|discriminate].
    simpl. intros [= <-]. unfold apply_required.
    set (field := Field.mk id type required disabled omitted linkType None).
    destruct (dispatch_extensions _ _ field Hget) as [He|[He|He]];
      destruct (Field.required field); simpl; rewrite He; intros [= <-];
      (by right) || (left; eexists; reflexivity).
  - unfold fieldData_of.
    destruct (Field.type items =? "Link").
    + simpl. unfold apply_required. simpl.
      destruct required; intros [= <-] [= <-]; left; eauto.
    + destruct (translateFieldType items) as [fd|e] eqn:Hitems; [|discriminate].
      simpl. unfold apply_required. simpl.
      destruct required; intros [= <-]; simpl; intros Hext;
        by apply (IH fd ext).
  - simpl. unfold apply_required. simpl.
    destruct required; intros [= <-] [= <-]; left; eauto.
  - destruct (ContentfulDataTypes !! type) as [make|] eqn:Hget; [|discriminate].
    simpl. intros [= <-]. unfold apply_required.
    set (field := Field.mk id type required disabled omitted linkType (Some items)).
    destruct (dispatch_extensions _ _ field Hget) as [He|[He|He]];
      destruct (Field.required field); simpl; rewrite He; intros [= <-];
      (by right) || (left; eexists; reflexivity).
Qed.

(** The type strings of the entries of the dispatch table are no lists. *)
Lemma dispatch_no_list ty make field :
  ContentfulDataTypes !! ty = Some make →
  is_list_type (Descriptor.type (make field)) = false
  ∧ is_list_type (Descriptor.type (make field) +:+ "!") = false.
Proof.
  unfold ContentfulDataTypes. intros Hget%elem_of_list_to_map_2.
  repeat (apply elem_of_cons in Hget as [Heq|Hget];
          [injection Heq as -> ->; by split|]).
  by apply elem_of_nil in Hget.
Qed.

(** X17. The type string of a translated field opens with a list bracket
    exactly when the field is an array: the list modifier is never put on a
    link or on a primitive, and never left off an array. *)
Theorem list_type_iff_array field d :
  translateFieldType field = Normal d →
  is_list_type (Descriptor.type d) = (Field.type field =? "Array").
Proof.
  rewrite translateFieldType_unfold. unfold apply_required.
  destruct (Field.type field =? "Array").
  - destruct (Field.items field) as [items|]; [|discriminate].
    destruct (fieldData_of field items) as [fd|e]; [|discriminate].
    simpl. intros [= <-]. by destruct (Field.required field).
  - destruct (Field.type field =? "Link").
    + simpl. intros [= <-]. by destruct (Field.required field).
    + destruct (ContentfulDataTypes !! Field.type field) as [make|] eqn:Hget;
        [|discriminate].
      simpl. intros [= <-].
      destruct (dispatch_no_list _ _ field Hget) as [Hplain Hbang].
      by destruct (Field.required field).
Qed.

End TranslatorMore.

Lemma list_type_iff_array_witness :
  is_list_type "[ContentfulText]" = true.
Proof.
  exact (list_type_iff_array paragraphs
           (Descriptor.mk "[ContentfulText]" (Some (link_extension
              (plain_field None "Text" false)))) eq_refl).
Defined.

Lemma array_of_primitives_witness :
  translateFieldType paragraphs =
  Normal
    {| Descriptor.type := "[ContentfulText]";
       Descriptor.extensions :=
         Some {[ "link" := ({[ "by" := "id"; "from" := "undefined___NODE" ]}
                            : props) ]} |}.
Proof.
  exact (array_of_primitives paragraphs (plain_field None "Text" false)
           (λ field, Descriptor.mk "ContentfulText" (Some (link_extension field)))
           eq_refl eq_refl eq_refl).
Defined.

Lemma translation_extensions_shape_witness :
  (∃ id, ({[ "link" := ({[ "by" := "id"; "from" := "cover___NODE" ]} : props) ]}
          : extensions_t)
         = {[ "link" := ({[ "by" := "id"; "from" := id +:+ "___NODE" ]}
                         : props) ]})
  ∨ ({[ "link" := ({[ "by" := "id"; "from" := "cover___NODE" ]} : props) ]}
     : extensions_t)
    = {[ "dateformat" := (∅ : props) ]}.
Proof.
  exact (translation_extensions_shape cover_assets _ _ eq_refl eq_refl).
Defined.

(** ** Further properties of the schema assembler *)

Section AssemblyMore.

Variable makeTypeName : option string → string.
Variable addRemoteFilePolyfillInterface : TypeDecl → list TypeDecl.
Implicit Types (pluginConfig : string → bool) (w : World).
Implicit Types (item : ContentTypeItem.t) (decl : TypeDecl).
Implicit Types (l : list ContentTypeItem.t).

Local Abbreviation object_of := (contentTypeObject makeTypeName).
Local Abbreviation built_of := (built makeTypeName).
Local Abbreviation failure_of := (first_failure makeTypeName).
Local Abbreviation generic_of :=
  (generic_decls addRemoteFilePolyfillInterface).
Local Abbreviation generate :=
  (generateSchema makeTypeName addRemoteFilePolyfillInterface).

Lemma forEach_field_skipped (fs : list Field.t) : ∀ m,
  forEach_field (List.filter enabled fs) m = forEach_field fs m.
Proof.
  induction fs as [|x fs IH]; intros m; [reflexivity|].
  simpl. unfold enabled at 1.
  destruct (Field.disabled x || Field.omitted x) eqn:Hskip; simpl.
  - apply IH.
  - rewrite Hskip. destruct (translateFieldType x); simpl; [apply IH | reflexivity].
Qed.

Lemma forEach_field_Normal (fs : list Field.t) : ∀ m,
  (∃ m', forEach_field fs m = Normal m')
  ↔ Forall (λ field, enabled field = true → translatable field = true) fs.
Proof.
  induction fs as [|x fs IH]; intros m.
  - split; [constructor | eauto].
  - simpl. rewrite Forall_cons. unfold enabled at 1.
    pose proof (translate_cases x) as Hx.
    destruct (Field.disabled x || Field.omitted x); simpl.
    + rewrite IH. intuition discriminate.
    + destruct (translateFieldType x) as [d|e]; simpl.
      * rewrite IH. tauto.
      * destruct Hx as [Hx _]. split; [by intros [m' ?]|].
        intros [Hyes _]. rewrite Hx in Hyes. by specialize (Hyes eq_refl).
Qed.

Lemma contentTypeObject_buildable pluginConfig item :
  (∃ decl, object_of pluginConfig item = Normal decl) ↔ buildable item.
Proof.
  unfold buildable. rewrite <- (forEach_field_Normal _ ∅).
  unfold contentTypeObject.
  destruct (forEach_field (ContentTypeItem.fields item) ∅) as [m|e]; simpl.
  - split; eauto.
  - split; by intros [? ?].
Qed.

Lemma contentTypeObject_name pluginConfig item decl :
  object_of pluginConfig item = Normal decl →
  decl_name decl = Some (type_name makeTypeName pluginConfig item).
Proof.
  unfold contentTypeObject.
  destruct (forEach_field _ ∅) as [m|e]; [|discriminate].
  simpl. by intros [= <-].
Qed.

Lemma first_failure_None pluginConfig l :
  failure_of pluginConfig l = None ↔ Forall buildable l.
Proof.
  induction l as [|x l IH]; simpl.
  - split; [constructor | reflexivity].
  - rewrite Forall_cons, <- IH, <- (contentTypeObject_buildable pluginConfig).
    destruct (object_of pluginConfig x) as [d|e].
    + split; [eauto | tauto].
    + split; [discriminate | by intros [[? ?] _]].
Qed.

Lemma built_all pluginConfig l :
  Forall buildable l →
  Forall2 (λ item decl,
             object_of pluginConfig item = Normal decl
             ∧ decl_name decl = Some (type_name makeTypeName pluginConfig item))
    l (built_of pluginConfig l).*2.
Proof.
  induction 1 as [|x l Hx _ IH]; simpl; [constructor|].
  apply (contentTypeObject_buildable pluginConfig) in Hx as [d Hd].
  rewrite Hd. rewrite fmap_cons. constructor; [|exact IH].
  split; [exact Hd | by apply contentTypeObject_name].
Qed.

(** X4. The loop over the content types returns normally exactly when
    every field that is neither disabled nor omitted, of every content type,
    is translatable.  It then prints nothing, and the registry gains one
    object type per content type, in the order of the input, each named by
    [makeTypeName] from the name of the content type when [useNameForId] is
    set and from its [sys.id] otherwise. *)
Theorem content_type_loop_succeeds_iff pluginConfig l w :
  ((forEach_contentType makeTypeName pluginConfig l w).2 = Normal tt
   ↔ Forall buildable l)
  ∧ (Forall buildable l →
     ∃ decls,
       forEach_contentType makeTypeName pluginConfig l w
       = ({| registry := registry w ++ decls; console := console w |},
          Normal tt)
       ∧ Forall2 (λ item decl,
                    object_of pluginConfig item = Normal decl
                    ∧ decl_name decl
                      = Some (type_name makeTypeName pluginConfig item))
           l decls).
Proof.
  rewrite forEach_contentType_run.
  pose proof (first_failure_None pluginConfig l) as Hnone.
  destruct (failure_of pluginConfig l) as [[item err]|]; simpl.
  - split; [split; [discriminate | intros Hall]|intros Hall];
      by apply Hnone in Hall.
  - split; [tauto|]. intros Hall.
    exists (built_of pluginConfig l).*2. split; [reflexivity|].
    by apply built_all.
Qed.

(** X5. The loop over the content types never removes what was registered
    or printed before: the old registry and console are kept as prefixes,
    there is at most one new object type per content type, and exactly one
    line is printed when the loop throws and none when it returns. *)
Theorem content_type_loop_only_appends pluginConfig l w :
  let run := forEach_contentType makeTypeName pluginConfig l w in
  ∃ decls lines,
    registry run.1 = registry w ++ decls
    ∧ console run.1 = console w ++ lines
    ∧ (length decls ≤ length l)%nat
    ∧ length lines = match run.2 with Normal _ => 0 | Throw _ => 1 end.
Proof.
  intros run. subst run.
  exists (built_of pluginConfig l).*2.
  assert (Hlen : (length (built_of pluginConfig l).*2 ≤ length l)%nat).
  { rewrite length_fmap. induction l as [|x l IH]; simpl; [lia|].
    destruct (object_of pluginConfig x); simpl; lia. }
  rewrite forEach_contentType_run.
  destruct (failure_of pluginConfig l) as [[item err]|]; simpl.
  - exists [(read_stack (annotate item err)).1]. by repeat split.
  - exists []. rewrite app_nil_r. by repeat split.
Qed.

Lemma contentTypeObject_without_skipped pluginConfig item :
  object_of pluginConfig (without_skipped item) = object_of pluginConfig item.
Proof.
  unfold contentTypeObject, without_skipped, with_fields. simpl.
  by rewrite forEach_field_skipped.
Qed.

(** X7. Disabled and omitted fields have no effect at all on schema
    generation: removing them from every content type gives the same
    registry, the same console and the same result, so that such a field can
    be of any type without making the generation fail. *)
Theorem skipped_fields_have_no_effect pluginConfig l w :
  generate pluginConfig (without_skipped <$> l) w = generate pluginConfig l w.
Proof.
  unfold generateSchema, mbind, action_bind.
  destruct (generic_types addRemoteFilePolyfillInterface pluginConfig w)
    as [w' [[]|e]]; [|reflexivity].
  revert w'. induction l as [|x l IH]; intros w'; [reflexivity|].
  rewrite fmap_cons. simpl. unfold mbind, action_bind, try_catch, lift.
  rewrite contentTypeObject_without_skipped.
  destruct (object_of pluginConfig x) as [d|e]; simpl; [apply IH|].
  change (annotate (without_skipped x) e) with (annotate x e).
  by destruct (read_stack (annotate x e)).
Qed.

Lemma filter_none {A : Type} (p : A → bool) (xs : list A) :
  (∀ x, x ∈ xs → p x = false) → List.filter p xs = [].
Proof.
  induction xs as [|x xs IH]; intros Hall; [reflexivity|].
  simpl. rewrite (Hall x (list_elem_of_here _ _)).
  apply IH. intros y Hy. apply Hall. by apply list_elem_of_further.
Qed.

Lemma model_field_last k (before after : list Field.t) field :
  enabled field = true → field_key field = k →
  (∀ later, later ∈ after → enabled later = true → field_key later ≠ k) →
  model_field k (before ++ field :: after) = Some field.
Proof.
  intros He Hk Hafter. unfold model_field.
  rewrite List.filter_app. simpl.
  rewrite He, Hk, String.eqb_refl. simpl.
  rewrite (filter_none _ after).
  - apply last_snoc.
  - intros later Hin. destruct (enabled later) eqn:Hel; [|reflexivity].
    simpl. apply String.eqb_neq. by apply Hafter.
Qed.

(** X8. When several translated fields of a content type share an id, the
    field map holds the descriptor of the last of them: a field that is
    neither disabled nor omitted, and is followed by no such field of the
    same id, is declared under its id with its own translation, unless that
    id is [__proto__], under which nothing is declared. *)
Theorem last_field_wins pluginConfig item decl before field after :
  object_of pluginConfig item = Normal decl →
  ContentTypeItem.fields item = before ++ field :: after →
  enabled field = true →
  (∀ later, later ∈ after → enabled later = true →
            field_key later ≠ field_key field) →
  ∃ d, translateFieldType field = Normal d
       ∧ decl_fields decl !! field_key field
         = if field_key field =? "__proto__" then None
           else Some (FieldDescriptor d).
Proof.
  intros Hobj Hfields He Hafter.
  destruct (field_key field =? "__proto__") eqn:Hproto.
  - apply String.eqb_eq in Hproto.
    assert (Hok : buildable item)
      by (apply (contentTypeObject_buildable pluginConfig); eauto).
    unfold buildable in Hok. rewrite Hfields, Forall_app, Forall_cons in Hok.
    destruct Hok as (_ & Hyes & _). specialize (Hyes He).
    pose proof (translate_cases field) as Hcase.
    destruct (translateFieldType field) as [d|e].
    + exists d. split; [reflexivity|].
      rewrite Hproto. by apply (decl_fields_proto makeTypeName pluginConfig item).
    + destruct Hcase as [Hno _]. congruence.
  - apply String.eqb_neq in Hproto.
    pose proof (decl_fields_lookup makeTypeName _ _ _ (field_key field)
                  Hobj Hproto) as Hk.
    by rewrite Hfields, (model_field_last _ _ _ _ He eq_refl Hafter) in Hk.
Qed.

Lemma forEach_field_Throw (fs : list Field.t) e : ∀ m,
  forEach_field fs m = Throw e ↔
  ∃ before field after,
    fs = before ++ field :: after
    ∧ Forall (λ earlier, enabled earlier = true → translatable earlier = true)
        before
    ∧ enabled field = true
    ∧ translateFieldType field = Throw e.
Proof.
  induction fs as [|x fs IH]; intros m.
  - split; [discriminate|]. intros (before & ? & ? & Heq & _).
    by destruct before.
  - simpl. pose proof (translate_cases x) as Hx.
    destruct (Field.disabled x || Field.omitted x) eqn:Hskip.
    + rewrite IH. split.
      * intros (before & field & after & -> & Hb & He & Ht).
        exists (x :: before), field, after. repeat split; try done.
        apply Forall_cons. split; [|exact Hb].
        unfold enabled. rewrite Hskip. discriminate.
      * intros (before & field & after & Heq & Hb & He & Ht).
        destruct before as [|y before]; simpl in Heq; injection Heq as <- ->.
        -- unfold enabled in He. by rewrite Hskip in He.
        -- apply Forall_cons in Hb as [_ Hb]. by exists before, field, after.
    + destruct (translateFieldType x) as [d|e'] eqn:Htx; simpl.
      * rewrite IH. split.
        -- intros (before & field & after & -> & Hb & He & Ht).
           exists (x :: before), field, after. repeat split; try done.
           apply Forall_cons. split; [by intros _|exact Hb].
        -- intros (before & field & after & Heq & Hb & He & Ht).
           destruct before as [|y before]; simpl in Heq; injection Heq as <- ->.
           ++ congruence.
           ++ apply Forall_cons in Hb as [_ Hb]. by exists before, field, after.
      * destruct Hx as [Hno _]. split.
        -- intros [= ->]. exists [], x, fs. repeat split; try done.
           unfold enabled. by rewrite Hskip.
        -- intros (before & field & after & Heq & Hb & He & Ht).
           destruct before as [|y before]; simpl in Heq; injection Heq as <- ->.
           ++ congruence.
           ++ apply Forall_cons in Hb as [Hy _].
              unfold enabled in Hy. rewrite Hskip, Hno in Hy.
              by specialize (Hy eq_refl).
Qed.

(** X16. The object of a content type fails with the error of the first
    of its fields, in order, that is neither disabled nor omitted and that
    the translator rejects; the fields after it are not translated. *)
Theorem first_rejected_field_decides pluginConfig item e :
  object_of pluginConfig item = Throw e ↔
  ∃ before field after,
    ContentTypeItem.fields item = before ++ field :: after
    ∧ Forall (λ earlier, enabled earlier = true → translatable earlier = true)
        before
    ∧ enabled field = true
    ∧ translateFieldType field = Throw e.
Proof.
  rewrite <- (forEach_field_Throw _ e ∅). unfold contentTypeObject.
  destruct (forEach_field (ContentTypeItem.fields item) ∅) as [m|e']; simpl.
  - split; discriminate.
  - split; by intros [= ->].
Qed.

End AssemblyMore.

(** X10. The asset type has its thirteen fixed fields whatever the
    configuration, and a [localFile] field, of type [File] and linked from
    [fields.localFile], exactly when [downloadLocal] is set. *)
Theorem asset_localFile_iff_downloadLocal (pluginConfig : string → bool) :
  dom (decl_fields (ContentfulAsset_type pluginConfig))
  = list_to_set asset_field_names
    ∪ (if pluginConfig "downloadLocal" then {[ "localFile" ]} else ∅)
  ∧ decl_fields (ContentfulAsset_type pluginConfig) !! "localFile"
    = (if pluginConfig "downloadLocal"
       then Some (FieldDescriptor
                    (Descriptor.mk "File"
                       (Some {[ "link" := ({[ "from" := "fields.localFile" ]}
                                           : props) ]})))
       else None).
Proof.
  unfold ContentfulAsset_type, spread, asset_field_names.
  cbn [decl_fields ObjectType.fields]. split.
  - rewrite !dom_union_L, !dom_insert_L, !dom_singleton_L.
    destruct (pluginConfig "downloadLocal").
    + rewrite dom_singleton_L. set_solver.
    + rewrite dom_empty_L. set_solver.
  - rewrite lookup_union_r by reflexivity.
    destruct (pluginConfig "downloadLocal").
    + by apply lookup_union_Some_l.
    + by rewrite (left_id ∅ (∪)).
Qed.

Lemma last_field_wins_witness :
  ∃ decl,
    contentTypeObject template (λ _, false) retitled_type = Normal decl
    ∧ decl_fields decl !! "title"
      = Some (FieldDescriptor
                (Descriptor.mk "ContentfulText!"
                   (Some {[ "link" := ({[ "by" := "id";
                                          "from" := "title___NODE" ]}
                                       : props) ]}))).
Proof.
  destruct (contentTypeObject template (λ _, false) retitled_type)
    as [decl|e] eqn:Hobj; [|by vm_compute in Hobj].
  exists decl. split; [reflexivity|].
  destruct (last_field_wins template (λ _, false) retitled_type decl
              [plain_field (Some "title") "Symbol" false]
              (plain_field (Some "title") "Text" true) [] Hobj eq_refl eq_refl)
    as (d & Hd & Hget).
  - intros later Hin. by apply elem_of_nil in Hin.
  - vm_compute in Hd. injection Hd as <-. exact Hget.
Defined.


(** ** Further properties of the rich-text link resolver *)

Section LinkResolverMore.

Variable Document : Type.
Implicit Types (getRichTextEntityLinks : Document → string → EntityLinks.t).
Implicit Types (node : Node.t) (ids : list string) (allNodes : list Node.t).

Lemma filter_filter {A : Type} (f : A → bool) (xs : list A) :
  List.filter f (List.filter f xs) = List.filter f xs.
Proof.
  induction xs as [|x xs IH]; [reflexivity|].
  simpl. destruct (f x) eqn:Hx; simpl; [|exact IH].
  by rewrite Hx, IH.
Qed.

Lemma keeps_ext entityType ids1 ids2 node :
  (∀ id, id ∈ ids1 ↔ id ∈ ids2) →
  keeps entityType ids1 node = keeps entityType ids2 node.
Proof.
  intros Hsame. unfold keeps.
  destruct (Node.sys_id node) as [id|]; [|reflexivity].
  f_equal. by apply bool_decide_ext.
Qed.

(** X11. Each of the five link resolvers returns, in the order of the
    store, exactly the stored nodes owned by [gatsby-source-contentful]
    whose [sys.type] is the entity type of the resolver and whose [sys.id] is
    a non-empty id among those extracted for its category.  Asked for another
    entity type, the resolver throws: because the value has no [map] when the
    key is one that the extractor's result inherits from [Object.prototype],
    because there is no value under any other key. *)
Theorem links_resolver_by_entity getRichTextEntityLinks
    (nodeType entityType : string) (source : Document) allNodes :
  makeRichTextLinksResolver Document getRichTextEntityLinks
    nodeType entityType source allNodes
  = if entityType =? "Asset" then
      Normal (filter (selected "Asset"
                        (EntityLinks.id
                           <$> EntityLinks.Asset
                                 (getRichTextEntityLinks source nodeType)))
                allNodes)
    else if entityType =? "Entry" then
      Normal (filter (selected "Entry"
                        (EntityLinks.id
                           <$> EntityLinks.Entry
                                 (getRichTextEntityLinks source nodeType)))
                allNodes)
    else if bool_decide (entityType ∈ EntityLinks.inherited) then
      Throw (TypeError map_not_a_function)
    else Throw (TypeError read_map_of_undefined).
Proof.
  unfold makeRichTextLinksResolver, EntityLinks.get.
  destruct (entityType =? "Asset") eqn:Ha.
  - apply String.eqb_eq in Ha as ->. simpl. f_equal.
    apply filter_reflect. intros node. apply keeps_selected.
  - destruct (entityType =? "Entry") eqn:He.
    + apply String.eqb_eq in He as ->. simpl. f_equal.
      apply filter_reflect. intros node. apply keeps_selected.
    + simpl. unfold no_list_error.
      by destruct (bool_decide (entityType ∈ EntityLinks.inherited)).
Qed.

(** X12. Resolving over a store made of two parts gives the nodes found in
    the first part followed by those found in the second. *)
Theorem links_resolver_store_append getRichTextEntityLinks
    (nodeType entityType : string) (source : Document) allNodes moreNodes :
  makeRichTextLinksResolver Document getRichTextEntityLinks
    nodeType entityType source (allNodes ++ moreNodes)
  = (found ← makeRichTextLinksResolver Document getRichTextEntityLinks
               nodeType entityType source allNodes;
     more ← makeRichTextLinksResolver Document getRichTextEntityLinks
              nodeType entityType source moreNodes;
     Normal (found ++ more)).
Proof.
  unfold makeRichTextLinksResolver.
  destruct (EntityLinks.get _ entityType) as [links|]; [|reflexivity].
  simpl. by rewrite List.filter_app.
Qed.

(** X13. The nodes a resolver returns are all found again when the
    resolver is run on them: resolving is idempotent on the store. *)
Theorem links_resolver_idempotent getRichTextEntityLinks
    (nodeType entityType : string) (source : Document) allNodes found :
  makeRichTextLinksResolver Document getRichTextEntityLinks
    nodeType entityType source allNodes = Normal found →
  makeRichTextLinksResolver Document getRichTextEntityLinks
    nodeType entityType source found = Normal found.
Proof.
  unfold makeRichTextLinksResolver.
  destruct (EntityLinks.get _ entityType) as [links|]; [|discriminate].
  simpl. intros [= <-]. by rewrite filter_filter.
Qed.

(** X14. Only the set of extracted ids matters: two documents from which
    the same ids are extracted, in any order and any number of times, resolve
    to the same nodes. *)
Theorem links_resolver_ids_as_set getRichTextEntityLinks
    (nodeType entityType : string) (source other : Document) allNodes
    links links' :
  EntityLinks.get (getRichTextEntityLinks source nodeType) entityType
  = Some links →
  EntityLinks.get (getRichTextEntityLinks other nodeType) entityType
  = Some links' →
  (∀ id, id ∈ EntityLinks.id <$> links ↔ id ∈ EntityLinks.id <$> links') →
  makeRichTextLinksResolver Document getRichTextEntityLinks
    nodeType entityType source allNodes
  = makeRichTextLinksResolver Document getRichTextEntityLinks
      nodeType entityType other allNodes.
Proof.
  intros Hl Hl' Hsame. unfold makeRichTextLinksResolver.
  rewrite Hl, Hl'. simpl. f_equal.
  induction allNodes as [|node allNodes IH]; [reflexivity|].
  simpl. by rewrite IH, (keeps_ext _ _ _ _ Hsame).
Qed.

End LinkResolverMore.

Lemma links_resolver_idempotent_witness :
  makeRichTextLinksResolver unit links_twice "embedded-asset-block" "Asset" tt
    [asset_a1]
  = Normal [asset_a1].
Proof.
  apply (links_resolver_idempotent unit links_twice
           "embedded-asset-block" "Asset" tt [foreign_a1; asset_a1]).
  reflexivity.
Defined.

Lemma links_resolver_ids_as_set_witness :
  makeRichTextLinksResolver bool links_of "asset-hyperlink" "Asset" true
    [foreign_a1; asset_a1]
  = makeRichTextLinksResolver bool links_of "asset-hyperlink" "Asset" false
      [foreign_a1; asset_a1].
Proof.
  apply (links_resolver_ids_as_set bool links_of "asset-hyperlink" "Asset"
           true false [foreign_a1; asset_a1]
           [ {| EntityLinks.id := "a1" |}; {| EntityLinks.id := "a1" |} ]
           [ {| EntityLinks.id := "a1" |} ] eq_refl eq_refl).
  intros id. simpl. rewrite !elem_of_cons. tauto.
Defined.

